(** * MP Project War Room: the aggregation and status pipeline

    A shallow embedding of [mp_project_war_room_v2.py]: the pandas
    group-by aggregations ([aggregate_project_progress], [heat_df],
    [agg_tl]), the status rule ([derive_status_flag], [status_count]) and
    the heatmap section with its [try]/[except].

    Modelling conventions.
    - A [float64] cell is either [NaN] or a finite number, held as an exact
      rational: rounding of binary64 arithmetic is not modelled, the
      behaviour of NaN in comparisons and reductions is.
    - An object cell (a string column) and a datetime cell may be missing:
      [None] stands for NaN / NaT.
    - A pandas [Timestamp] is its count of nanoseconds since the epoch.
    - [pd.Timestamp.today()] reads the wall clock; the reading is passed
      explicitly as [now]. *)

From Stdlib Require Import List ZArith QArith Lia Lqa Bool.
From Stdlib Require Import Ascii String.
From Stdlib Require Import Permutation Sorted.
Import ListNotations.

Local Open Scope Z_scope.
Local Open Scope string_scope.
Local Open Scope list_scope.

(** * Part I: the program *)

(** ** Cell values *)

Inductive float64 : Type :=
| NaN : float64
| Fin (q : Q) : float64.

(** [x >= y] and [x < y] on floats: false as soon as one side is NaN. *)
Definition f_ge (x y : float64) : bool :=
  match x, y with
  | Fin a, Fin b => Qle_bool b a
  | _, _ => false
  end.

Definition f_lt (x y : float64) : bool :=
  match x, y with
  | Fin a, Fin b => negb (Qle_bool b a)
  | _, _ => false
  end.

(** Equality of floats up to the representation of the rational. *)
Definition f_same (x y : float64) : Prop :=
  match x, y with
  | NaN, NaN => True
  | Fin a, Fin b => (a == b)%Q
  | _, _ => False
  end.

(** Nanoseconds since the epoch, as pandas stores a [Timestamp]. *)
Definition Timestamp : Type := Z.

Definition ns_per_day : Z := 86400 * 1000000000.

(** The calendar day a timestamp falls on ([Timestamp.normalize], counted
    in days). *)
Definition date_of (t : Timestamp) : Z := t / ns_per_day.

(** Midnight of day [d]: what a date-only spreadsheet cell is read as. *)
Definition midnight (d : Z) : Timestamp := d * ns_per_day.

(** ** Orders on group keys *)

Class Ord (K : Type) : Type := {
  leb : K -> K -> bool
}.

Definition key_eqb {K} `{Ord K} (a b : K) : bool := leb a b && leb b a.

(** Integers, by [<=]. *)
#[export] Instance Ord_Z : Ord Z := {| leb := Z.leb |}.

(** Strings, lexicographically by character code, as Python compares
    [str] values. *)
#[export] Instance Ord_string : Ord string := {| leb := String.leb |}.

(** Tuples of key columns, lexicographically, first column first. *)
Definition pair_leb {A B} `{Ord A} `{Ord B} (x y : A * B) : bool :=
  if key_eqb (fst x) (fst y) then leb (snd x) (snd y) else leb (fst x) (fst y).

#[export] Instance Ord_pair {A B} `{Ord A} `{Ord B} : Ord (A * B) := {|
  leb := pair_leb
|}.

(** ** [DataFrame.groupby]

    [df.groupby(cols)] with the defaults [sort=True], [dropna=True]: a row
    in which one of the key columns is missing belongs to no group; the
    groups are keyed by the distinct key tuples, each holds its rows in
    the order of the frame, and the groups come sorted by key. *)

Section GroupBy.
Context {K R : Type} `{Ord K}.

(** The key tuple of a row, [None] when a key column is missing. *)
Variable by_key : R -> option K.

Definition has_key (k : K) (r : R) : bool :=
  match by_key r with
  | Some k' => key_eqb k k'
  | None => false
  end.

(** One pass over the frame: a row joins the group of its key, a key not
    seen before opens a group. *)
Fixpoint add_to_group (k : K) (r : R) (gs : list (K * list R))
  : list (K * list R) :=
  match gs with
  | [] => [(k, [r])]
  | (k', rs) :: gs' =>
      if key_eqb k k' then (k', rs ++ [r]) :: gs'
      else (k', rs) :: add_to_group k r gs'
  end.

Definition split_step (gs : list (K * list R)) (r : R) : list (K * list R) :=
  match by_key r with
  | Some k => add_to_group k r gs
  | None => gs
  end.

Definition split_groups (rows : list R) : list (K * list R) :=
  fold_left split_step rows [].

(** Sorting the groups by key. *)
Fixpoint insert_group {V} (g : K * V) (l : list (K * V)) : list (K * V) :=
  match l with
  | [] => [g]
  | h :: t => if leb (fst g) (fst h) then g :: h :: t
              else h :: insert_group g t
  end.

Fixpoint sort_groups {V} (l : list (K * V)) : list (K * V) :=
  match l with
  | [] => []
  | g :: t => insert_group g (sort_groups t)
  end.

Definition groupby (rows : list R) : list (K * list R) :=
  sort_groups (split_groups rows).

(** [.agg(f)]: one value per group. *)
Definition agg {V} (f : list R -> V) (gs : list (K * list R)) : list (K * V) :=
  map (fun g => (fst g, f (snd g))) gs.

(** The rows collected under [k], none when [k] has no group. *)
Definition group_rows (k : K) (gs : list (K * list R)) : list R :=
  match find (fun g => key_eqb k (fst g)) gs with
  | Some g => snd g
  | None => []
  end.

Definition key_le {V} (x y : K * V) : Prop := leb (fst x) (fst y) = true.
Definition key_lt {V} (x y : K * V) : Prop :=
  leb (fst x) (fst y) = true /\ fst x <> fst y.
End GroupBy.

(** ** The frames of the dashboard *)

#[export] Instance Ord_Timestamp : Ord Timestamp := Ord_Z.

(** One row of the spreadsheet [df]. *)
Record record : Type := mk_record {
  Project_Name : option string;
  Project_category : option string;
  Department : option string;
  Sub_department : option string;
  Department_Head : option string;
  Expected_Completion : option Timestamp;
  Week_Number : option Z;
  Completion_pct : float64;
  Status_Flag : option string
}.

(** The six key columns of [aggregate_project_progress], in the order of
    the [groupby] call. *)
Definition identity : Type :=
  string * string * string * string * string * Timestamp.

Definition identity_of (r : record) : option identity :=
  match Project_Name r, Project_category r, Department r,
        Sub_department r, Department_Head r, Expected_Completion r with
  | Some n, Some c, Some d, Some sd, Some h, Some e => Some (n, c, d, sd, h, e)
  | _, _, _, _, _, _ => None
  end.

(** [df[df["Week Number"] == selected_week]] *)
Definition df_week (df : list record) (selected_week : Z) : list record :=
  filter (fun r => match Week_Number r with
                   | Some w => Z.eqb w selected_week
                   | None => false
                   end) df.

(** The ["mean"] reduction of a float column within one group: the sum and
    the number of the entries that are not NaN, then their quotient, NaN
    for a group without such an entry. *)
Definition mean_step (acc : Q * nat) (v : float64) : Q * nat :=
  match v with
  | Fin q => ((fst acc + q)%Q, S (snd acc))
  | NaN => acc
  end.

Definition group_mean (vals : list float64) : float64 :=
  let (sumx, nobs) := fold_left mean_step vals (0%Q, 0%nat) in
  match nobs with
  | O => NaN
  | S _ => Fin (sumx / inject_Z (Z.of_nat nobs))
  end.

(** The ["last"] reduction within one group: the last entry that is not
    missing, missing for a group without such an entry. *)
Definition last_step {A} (acc v : option A) : option A :=
  match v with
  | Some _ => v
  | None => acc
  end.

Definition group_last {A} (vals : list (option A)) : option A :=
  fold_left last_step vals None.

(** One row of [proj_summary]: after [reset_index] the key is back in six
    columns, none of them missing. *)
Record summary : Type := mk_summary {
  ps_Project_Name : string;
  ps_Project_category : string;
  ps_Department : string;
  ps_Sub_department : string;
  ps_Department_Head : string;
  ps_Expected_Completion : Timestamp;
  ps_Completion_pct : float64;
  ps_Status_Flag : option string
}.

Definition ps_identity (s : summary) : identity :=
  (ps_Project_Name s, ps_Project_category s, ps_Department s,
   ps_Sub_department s, ps_Department_Head s, ps_Expected_Completion s).

Definition reset_index (g : identity * (float64 * option string)) : summary :=
  let '((n, c, d, sd, h, e), (m, l)) := g in
  mk_summary n c d sd h e m l.

Definition mean_and_last (rs : list record) : float64 * option string :=
  (group_mean (map Completion_pct rs), group_last (map Status_Flag rs)).

Definition aggregate_project_progress (df_week : list record) : list summary :=
  map reset_index (agg mean_and_last (groupby identity_of df_week)).

(** ** Status rule *)

(** [now] is the value [pd.Timestamp.today()] returns when the row is
    classified: the local date and time of day. [pd.to_datetime] leaves the
    [Timestamp] of the row as it is. *)
Definition derive_status_flag (now : Timestamp) (row : summary) : string :=
  if f_ge (ps_Completion_pct row) (Fin 99.9) then "Completed"
  else if f_ge (ps_Completion_pct row) (Fin 85) then "On Track"
  else if f_lt (ps_Completion_pct row) (Fin 85)
          && (ps_Expected_Completion row <? now)%Z then "Delayed"
  else "Paused".

(** A row of [proj_summary] once the column ["Derived Status"] is set. *)
Record classified : Type := mk_classified {
  cs_row : summary;
  Derived_Status : string
}.

(** [proj_summary.apply(derive_status_flag, axis=1)]: row by row, the
    [i]-th call reading the clock as [clock i]. *)
Fixpoint apply_from (clock : nat -> Timestamp) (i : nat) (rows : list summary)
  : list classified :=
  match rows with
  | [] => []
  | row :: rest =>
      mk_classified row (derive_status_flag (clock i) row)
        :: apply_from clock (S i) rest
  end.

Definition with_derived_status (clock : nat -> Timestamp) (proj_summary : list summary)
  : list classified :=
  apply_from clock 0 proj_summary.

Definition status_count (df : list classified) (status : string) : nat :=
  List.length (filter (fun r => String.eqb (Derived_Status r) status) df).

(** ** Timeline trend of the "Super Critical" projects *)

Definition is_category (cat : string) (r : record) : bool :=
  match Project_category r with
  | Some c => String.eqb c cat
  | None => false
  end.

(** [df[df["Project category"] == "Super Critical"]] *)
Definition timeline_df (df : list record) : list record :=
  filter (is_category "Super Critical") df.

Definition week_project (r : record) : option (Z * string) :=
  match Week_Number r, Project_Name r with
  | Some w, Some n => Some (w, n)
  | _, _ => None
  end.

(** One row of [agg_tl]. *)
Record trend_point : Type := mk_trend_point {
  tp_Week_Number : Z;
  tp_Project_Name : string;
  tp_Completion_pct : float64
}.

Definition mean_completion (rs : list record) : float64 :=
  group_mean (map Completion_pct rs).

Definition trend_row (g : Z * string * float64) : trend_point :=
  mk_trend_point (fst (fst g)) (snd (fst g)) (snd g).

(** [timeline_df.groupby(["Week Number", "Project Name"])
      .agg({"Completion %": "mean"}).reset_index()] *)
Definition agg_tl (timeline_df : list record) : list trend_point :=
  map trend_row (agg mean_completion (groupby week_project timeline_df)).

(** The other order, as the specification describes it: aggregate the
    whole frame by week, project and category, keep the groups of the
    category, and drop the category column. *)
Definition week_project_category (r : record) : option (Z * string * string) :=
  match Week_Number r, Project_Name r, Project_category r with
  | Some w, Some n, Some c => Some (w, n, c)
  | _, _, _ => None
  end.

Definition in_category (cat : string) (g : Z * string * string * float64) : bool :=
  String.eqb (snd (fst g)) cat.

Definition drop_category (g : Z * string * string * float64) : Z * string * float64 :=
  (fst (fst g), snd g).

Definition aggregate_then_filter (df : list record) : list trend_point :=
  map trend_row
      (map drop_category
           (filter (in_category "Super Critical")
                   (agg mean_completion (groupby week_project_category df)))).

(** ** The page: Streamlit calls and exceptions

    The script writes elements to the page one after the other and may
    raise. A [script] takes the page rendered so far and gives the page
    after it, with its result or the exception that ended it. The calls to
    Streamlit are taken to return; a chart is recorded by the data it is
    given, and the construction of the annotated heatmap raises on a matrix
    without row. *)

Inductive figure : Type :=
| annotated_heatmap (z : list (list float64)) (x y : list string)
| line (data_frame : list trend_point).

Inductive element : Type :=
| markdown (body : string)
| plotly_chart (fig : figure)
| warning (body : string).

Inductive outcome (A : Type) : Type :=
| Returned (a : A)
| Raised (e : string).

Arguments Returned {A} a.
Arguments Raised {A} e.

Definition script (A : Type) : Type := list element -> list element * outcome A.

Definition ret {A} (a : A) : script A := fun page => (page, Returned a).

Definition bind {A B} (c : script A) (k : A -> script B) : script B :=
  fun page =>
    match c page with
    | (page', Returned a) => k a page'
    | (page', Raised e) => (page', Raised e)
    end.

(** A pure computation that may raise. *)
Definition lift {A} (o : outcome A) : script A := fun page => (page, o).

Definition emit (e : element) : script unit := fun page => ((page ++ [e])%list, Returned tt).

(** [try: body / except Exception as e: handler(e)] *)
Definition try_except {A} (body : script A) (handler : string -> script A) : script A :=
  fun page =>
    match body page with
    | (page', Returned a) => (page', Returned a)
    | (page', Raised e) => handler e page'
    end.

Notation "x <- c ;; k" := (bind c (fun x => k))
  (at level 61, c at next level, right associativity).
Notation "c ;; k" := (bind c (fun _ => k))
  (at level 61, right associativity).

Definition st_markdown (body : string) : script unit := emit (markdown body).
Definition st_plotly_chart (fig : figure) : script unit := emit (plotly_chart fig).
Definition st_warning (body : string) : script unit := emit (warning body).

(** ** Heatmap *)

(** One row of [heat_df]. *)
Record heat_row : Type := mk_heat_row {
  hr_Department : string;
  hr_Project_Name : string;
  hr_Completion_pct : float64
}.

Definition department_project (r : classified) : option (string * string) :=
  Some (ps_Department (cs_row r), ps_Project_Name (cs_row r)).

Definition heat_row_of (g : string * string * float64) : heat_row :=
  mk_heat_row (fst (fst g)) (snd (fst g)) (snd g).

(** [proj_summary.groupby(["Department", "Project Name"])["Completion %"]
      .mean().reset_index()] *)
Definition heat_df (proj_summary : list classified) : list heat_row :=
  map heat_row_of
      (agg (fun rs => group_mean (map (fun r => ps_Completion_pct (cs_row r)) rs))
           (groupby department_project proj_summary)).

(** A wide frame: row labels, column labels and the cells row by row. *)
Record frame : Type := mk_frame {
  index : list string;
  columns : list string;
  values : list (list float64)
}.

Fixpoint duplicated {K} `{Ord K} (l : list K) : bool :=
  match l with
  | [] => false
  | k :: t => existsb (key_eqb k) t || duplicated t
  end.

Fixpoint insert_unique {K} `{Ord K} (k : K) (l : list K) : list K :=
  match l with
  | [] => [k]
  | h :: t => if key_eqb k h then l
              else if leb k h then k :: l
              else h :: insert_unique k t
  end.

Definition sorted_unique {K} `{Ord K} (l : list K) : list K :=
  fold_right insert_unique [] l.

Definition heat_key (r : heat_row) : string * string :=
  (hr_Department r, hr_Project_Name r).

(** The entry of a (department, project) pair in the long frame. *)
Definition lookup_cell (heat_df : list heat_row) (d p : string) : option float64 :=
  option_map hr_Completion_pct
             (find (fun r => key_eqb (d, p) (heat_key r)) heat_df).

Definition cell_or_NaN (c : option float64) : float64 :=
  match c with
  | Some v => v
  | None => NaN
  end.

(** [heat_df.pivot(index="Department", columns="Project Name",
                   values="Completion %")]: raises [ValueError] when a
    (department, project) pair occurs twice; otherwise one row per
    department and one column per project, both sorted, a pair without
    entry giving a NaN cell. *)
Definition pivot (heat_df : list heat_row) : outcome frame :=
  if duplicated (map heat_key heat_df)
  then Raised "Index contains duplicate entries, cannot reshape"
  else
    let idx := sorted_unique (map hr_Department heat_df) in
    let cols := sorted_unique (map hr_Project_Name heat_df) in
    Returned (mk_frame idx cols
                (map (fun d => map (fun p => cell_or_NaN (lookup_cell heat_df d p)) cols)
                     idx)).

Definition fill (v : Q) (c : float64) : float64 :=
  match c with
  | NaN => Fin v
  | Fin _ => c
  end.

(** [frame.fillna(v)] *)
Definition fillna (v : Q) (f : frame) : frame :=
  mk_frame (index f) (columns f) (map (map (fill v)) (values f)).

(** [ff.create_annotated_heatmap(z=heat_pivot.values,
      x=list(heat_pivot.columns), y=list(heat_pivot.index), ...)]; the
    annotation text is computed from [z] and the colours are constants.
    On a matrix without row the library reads [z[0]] and raises
    [IndexError]; on a matrix with rows, each with one cell per column
    label, it returns the figure. *)
Definition create_annotated_heatmap (heat_pivot : frame) : outcome figure :=
  match values heat_pivot with
  | [] => Raised "index 0 is out of bounds for axis 0 with size 0"
  | _ :: _ =>
      Returned (annotated_heatmap (values heat_pivot) (columns heat_pivot)
                                  (index heat_pivot))
  end.

Definition heatmap_section (heat_df : list heat_row) : script unit :=
  st_markdown "#### Department-wise Project Heatmap" ;;
  try_except
    (heat_pivot <- lift (pivot heat_df) ;;
     let heat_pivot := fillna 0 heat_pivot in
     heatmap_fig <- lift (create_annotated_heatmap heat_pivot) ;;
     st_plotly_chart heatmap_fig)
    (fun e => st_warning ("Unable to render heatmap for this week: " ++ e)%string).

Definition timeline_section (df : list record) : script unit :=
  st_markdown "#### Timeline Trend: Super Critical Projects" ;;
  let timeline_df := timeline_df df in
  match timeline_df with
  | _ :: _ => st_plotly_chart (line (agg_tl timeline_df))
  | [] => ret tt
  end.

Definition closing_note : script unit :=
  st_markdown "---" ;;
  st_markdown "**Note:** All data and status are for demonstration purposes only.".

(** The script from the heatmap heading to its end, for a given long
    frame [heat_df]. *)
Definition page_from_heatmap (heat_df : list heat_row) (df : list record) : script unit :=
  heatmap_section heat_df ;;
  timeline_section df ;;
  closing_note.

(** What the timeline section and the closing note add to the page. *)
Definition timeline_elements (df : list record) : list element :=
  markdown "#### Timeline Trend: Super Critical Projects"
  :: match timeline_df df with
     | _ :: _ => [plotly_chart (line (agg_tl (timeline_df df)))]
     | [] => []
     end.

Definition closing_elements : list element :=
  [markdown "---";
   markdown "**Note:** All data and status are for demonstration purposes only."].

Definition is_warning (e : element) : bool :=
  match e with
  | warning _ => true
  | _ => false
  end.

Definition heatmap_heading : element :=
  markdown "#### Department-wise Project Heatmap".

(** ** Notions of the specification and sample frames *)

(** The claim that an aggregated record due on the current calendar day is
    never "Delayed", as the specification words it. *)
Definition due_today_is_paused : Prop :=
  forall (rows : list record) (now : Timestamp) (row : summary),
    In row (aggregate_project_progress rows) ->
    f_lt (ps_Completion_pct row) (Fin 85) = true ->
    date_of (ps_Expected_Completion row) = date_of now ->
    derive_status_flag now row = "Paused".

(** A spreadsheet row at 84.99 % due on day 20000, the date read from a
    date-only cell, and its record in [proj_summary]. *)
Definition record_due_day_20000 : record :=
  mk_record (Some "Bridge A") (Some "Critical") (Some "PWD") (Some "Roads")
            (Some "A. Verma") (Some (midnight 20000)) (Some 3%Z)
            (Fin 84.99) (Some "On Track").

Definition row_due_day_20000 : summary :=
  mk_summary "Bridge A" "Critical" "PWD" "Roads" "A. Verma"
             (midnight 20000) (Fin 84.99) (Some "On Track").

(** Noon of day 20000. *)
Definition noon_day_20000 : Timestamp := midnight 20000 + 12 * 3600 * 1000000000.

(** The entries of a float column that are not NaN. *)
Fixpoint present (vals : list float64) : list Q :=
  match vals with
  | [] => []
  | NaN :: t => present t
  | Fin q :: t => q :: present t
  end.

Definition Qsum (xs : list Q) : Q := fold_right Qplus 0%Q xs.

(** The arithmetic mean of a list of numbers: their sum over their count,
    undefined (NaN) for the empty list. *)
Definition arithmetic_mean (xs : list Q) : float64 :=
  match xs with
  | [] => NaN
  | _ :: _ => Fin (Qsum xs / inject_Z (Z.of_nat (List.length xs)))
  end.

(** The last entry of a column that is not missing. *)
Definition is_present {A} (v : option A) : bool :=
  match v with
  | Some _ => true
  | None => false
  end.

Definition last_present {A} (vals : list (option A)) : option A :=
  List.last (filter is_present vals) None.

(** The rows of the frame that carry the complete key [k]. *)
Definition group_of (k : identity) (rows : list record) : list record :=
  filter (has_key identity_of k) rows.

(** The six key cells of a spreadsheet row and of a summary row, as they
    are stored. *)
Definition cells : Type :=
  option string * option string * option string * option string
  * option string * option Timestamp.

Definition key_cells (r : record) : cells :=
  (Project_Name r, Project_category r, Department r, Sub_department r,
   Department_Head r, Expected_Completion r).

Definition ps_key_cells (s : summary) : cells :=
  (Some (ps_Project_Name s), Some (ps_Project_category s),
   Some (ps_Department s), Some (ps_Sub_department s),
   Some (ps_Department_Head s), Some (ps_Expected_Completion s)).

(** The cardinality law as the specification words it: every key tuple
    that occurs in the input has its record in the output. *)
Definition one_record_per_input_key : Prop :=
  forall (rows : list record) (r : record),
    In r rows ->
    exists s, In s (aggregate_project_progress rows) /\
              ps_key_cells s = key_cells r /\
              forall s', In s' (aggregate_project_progress rows) ->
                         ps_key_cells s' = key_cells r -> s' = s.

(** A row whose sub-department cell is empty. *)
Definition row_no_sub_department : record :=
  mk_record (Some "Bridge A") (Some "Critical") (Some "PWD") None
            (Some "A. Verma") (Some (midnight 20000)) (Some 3%Z)
            (Fin 80) (Some "On Track").

(** Two rows of one project, the first at 80 % and flagged "Delayed", the
    second at 90 % with an empty status cell. *)
Definition bridge_a_80 : record :=
  mk_record (Some "Bridge A") (Some "Critical") (Some "PWD") (Some "Roads")
            (Some "A. Verma") (Some (midnight 20000)) (Some 3%Z)
            (Fin 80) (Some "Delayed").

Definition bridge_a_90_no_flag : record :=
  mk_record (Some "Bridge A") (Some "Critical") (Some "PWD") (Some "Roads")
            (Some "A. Verma") (Some (midnight 20000)) (Some 3%Z)
            (Fin 90) None.

Definition bridge_a_summary : summary :=
  mk_summary "Bridge A" "Critical" "PWD" "Roads" "A. Verma" (midnight 20000)
             (Fin ((0 + 80 + 90) / 2)) (Some "Delayed").

(** The claim on the raw status flag as the specification words it: the
    flag of the group's last row. *)
Definition flag_of_last_row : Prop :=
  forall (rows : list record) (s : summary),
    In s (aggregate_project_progress rows) ->
    ps_Status_Flag s =
    List.last (map Status_Flag (group_of (ps_identity s) rows)) None.

(** At least one of the six key cells is empty. *)
Definition missing_key_cell (r : record) : Prop :=
  Project_Name r = None \/ Project_category r = None \/ Department r = None \/
  Sub_department r = None \/ Department_Head r = None \/
  Expected_Completion r = None.

Definition bridge_b_no_value : record :=
  mk_record (Some "Bridge B") (Some "Urgent") (Some "PWD") (Some "Roads")
            (Some "A. Verma") (Some (midnight 10000)) (Some 3%Z)
            NaN (Some "Out of Scope").

Definition bridge_b_summary : summary :=
  mk_summary "Bridge B" "Urgent" "PWD" "Roads" "A. Verma" (midnight 10000)
             NaN (Some "Out of Scope").

(** The second half of the claim on the heatmap as the specification
    words it: whenever the pivot returns, the page gets no warning. *)
Definition no_warning_when_pivot_returns : Prop :=
  forall (proj_summary : list classified) (df : list record)
         (page : list element) (heat_pivot : frame),
    pivot (heat_df proj_summary) = Returned heat_pivot ->
    existsb is_warning
      (skipn (List.length page)
             (fst (page_from_heatmap (heat_df proj_summary) df page))) = false.

(** A frame where a (department, project) pair occurs twice, and one
    where none does. *)
Definition heat_df_twice : list heat_row :=
  [mk_heat_row "PWD" "Bridge A" (Fin 80); mk_heat_row "PWD" "Bridge A" (Fin 90)].

Definition heat_df_sparse : list heat_row :=
  [mk_heat_row "PWD" "Bridge A" (Fin 80); mk_heat_row "Urban" "Metro" NaN;
   mk_heat_row "Urban" "Amrut" (Fin 42.5)].

Definition bridge_c_done : record :=
  mk_record (Some "Bridge C") (Some "Super Critical") (Some "PWD") (Some "Roads")
            (Some "A. Verma") (Some (midnight 19000)) (Some 3%Z)
            (Fin 100) (Some "Completed").

Definition amrut_late : record :=
  mk_record (Some "Amrut 2.0") (Some "Super Critical") (Some "Urban") (Some "Water")
            (Some "R. Singh") (Some (midnight 19000)) (Some 4%Z)
            (Fin 40) (Some "Delayed").

(** ** Sidebar: the week selector *)

(** [Series.unique()]: the distinct values, in the order in which they
    first appear. *)
Definition unique_step {K} `{Ord K} (seen : list K) (k : K) : list K :=
  if existsb (key_eqb k) seen then seen else seen ++ [k].

Definition unique {K} `{Ord K} (l : list K) : list K :=
  fold_left unique_step l [].

(** [sorted(...)], ascending and stable. *)
Fixpoint insert_sorted {K} `{Ord K} (k : K) (l : list K) : list K :=
  match l with
  | [] => [k]
  | h :: t => if leb k h then k :: l else h :: insert_sorted k t
  end.

Definition sorted {K} `{Ord K} (l : list K) : list K :=
  fold_right insert_sorted [] l.

(** [sorted(df["Week Number"].unique())], for a column ["Week Number"]
    without missing entry, given by its values [weeks]. *)
Definition week_options (weeks : list Z) : list Z :=
  sorted (unique weeks).

(** The week the select box shows first: [index=len(week_options)-1]. No
    week when the list of options is empty. *)
Definition default_week (weeks : list Z) : option Z :=
  let week_options := week_options weeks in
  nth_error week_options (List.length week_options - 1).

(** ** Header cards *)

(** [proj_summary.shape[0]] *)
Definition total_projects (proj_summary : list classified) : nat :=
  List.length proj_summary.

(** ** Colours of the statuses *)

Definition cat_colors : list (string * string) :=
  [("Completed", "#2866E0");
   ("On Track", "#219E38");
   ("Delayed", "#E9B100");
   ("Paused", "#F77F1E");
   ("Out of Scope", "#818B99")].

(** The colour the charts take for a status from the map given as
    [color_discrete_map]; none when the status has no entry. *)
Definition color_of (status : string) : option string :=
  option_map snd (find (fun kv => String.eqb (fst kv) status) cat_colors).

(** ** Category grid *)

Definition cat_order : list string :=
  ["Super Critical"; "Critical"; "Urgent"; "Moderate"].

(** [proj_summary[proj_summary["Project category"] == cat]] *)
Definition cat_df (proj_summary : list classified) (cat : string) : list classified :=
  filter (fun r => String.eqb (ps_Project_category (cs_row r)) cat) proj_summary.

(** What a column of the grid shows under its title: the notice of
    [st.info] when [cat_df] is empty, the bar chart of [cat_df] otherwise. *)
Inductive column_content : Type :=
| info (body : string)
| bar (data_frame : list classified).

Definition category_column (proj_summary : list classified) (cat : string)
  : column_content :=
  let cat_df := cat_df proj_summary cat in
  match cat_df with
  | [] => info "No projects in this category."
  | _ :: _ => bar cat_df
  end.

(** [for i, cat in enumerate(cat_order): ...]: the columns with their
    titles, from left to right. *)
Definition category_grid (proj_summary : list classified)
  : list (string * column_content) :=
  map (fun cat => (cat, category_column proj_summary cat)) cat_order.

(** ** Notions used to state the further properties *)

(** The complete identity keys of the rows of a frame, row by row. *)
Definition complete_keys (rows : list record) : list identity :=
  flat_map (fun r => match identity_of r with
                     | Some k => [k]
                     | None => []
                     end) rows.

(** The records of [proj_summary] of one department and project. *)
Definition heat_group (proj_summary : list classified) (d p : string) : list classified :=
  filter (has_key department_project (d, p)) proj_summary.

(** The "Super Critical" rows of one week and project. *)
Definition trend_group (df : list record) (w : Z) (n : string) : list record :=
  filter (has_key week_project (w, n)) (timeline_df df).

Definition identity_lt (a b : summary) : Prop :=
  leb (ps_identity a) (ps_identity b) = true /\ ps_identity a <> ps_identity b.

Definition week_project_lt (a b : trend_point) : Prop :=
  (tp_Week_Number a < tp_Week_Number b)%Z \/
  (tp_Week_Number a = tp_Week_Number b /\
   String.ltb (tp_Project_Name a) (tp_Project_Name b) = true).

Definition bridge_c_summary : summary :=
  mk_summary "Bridge C" "Super Critical" "PWD" "Roads" "A. Verma" (midnight 19000)
             (Fin 100) (Some "Completed").

(** The category of the record is one of the four of the grid. *)
Definition in_cat_order (r : classified) : bool :=
  existsb (String.eqb (ps_Project_category (cs_row r))) cat_order.

(** The completion of a record of [proj_summary]. *)
Definition completion_of (c : classified) : float64 := ps_Completion_pct (cs_row c).

(** Strictly below in the order of the keys. *)
Definition strictly_below {K} `{Ord K} (a b : K) : Prop :=
  leb a b = true /\ a <> b.

(** * Part II: properties *)

(** ** Laws of the key orders *)

(** The laws of a total order. *)
Class OrdLaws (K : Type) `{Ord K} : Prop := {
  leb_total : forall a b : K, leb a b = true \/ leb b a = true;
  leb_trans : forall a b c : K, leb a b = true -> leb b c = true -> leb a c = true;
  leb_antisym : forall a b : K, leb a b = true -> leb b a = true -> a = b
}.

Lemma leb_refl {K} `{Ord K} `{!OrdLaws K} (a : K) : leb a a = true.
Proof. destruct (leb_total a a); assumption. Qed.

Lemma key_eqb_eq {K} `{Ord K} `{!OrdLaws K} (a b : K) : key_eqb a b = true <-> a = b.
Proof.
  unfold key_eqb. rewrite andb_true_iff. split.
  - intros [Hab Hba]. now apply leb_antisym.
  - intros ->. split; apply leb_refl.
Qed.

Lemma key_eqb_refl {K} `{Ord K} `{!OrdLaws K} (a : K) : key_eqb a a = true.
Proof. now apply key_eqb_eq. Qed.

Lemma key_eqb_neq {K} `{Ord K} `{!OrdLaws K} (a b : K) : key_eqb a b = false <-> a <> b.
Proof.
  rewrite <- key_eqb_eq. destruct (key_eqb a b); split; congruence.
Qed.

#[export] Instance OrdLaws_Z : OrdLaws Z.
Proof.
  split; simpl.
  - intros a b. rewrite !Z.leb_le. lia.
  - intros a b c. rewrite !Z.leb_le. lia.
  - intros a b. rewrite !Z.leb_le. lia.
Qed.

Lemma ascii_compare_lt_trans (a b c : ascii) :
  Ascii.compare a b = Lt -> Ascii.compare b c = Lt -> Ascii.compare a c = Lt.
Proof.
  unfold Ascii.compare. rewrite !N.compare_lt_iff. lia.
Qed.

Lemma string_compare_refl (s : string) : String.compare s s = Eq.
Proof.
  induction s as [|c s IH]; simpl; [reflexivity|].
  unfold Ascii.compare. now rewrite N.compare_refl.
Qed.

Lemma string_compare_lt_trans (s1 : string) :
  forall s2 s3,
    String.compare s1 s2 = Lt -> String.compare s2 s3 = Lt ->
    String.compare s1 s3 = Lt.
Proof.
  induction s1 as [|c1 s1 IH]; intros [|c2 s2] [|c3 s3]; simpl;
    try congruence.
  destruct (Ascii.compare c1 c2) eqn:E12; try discriminate;
    destruct (Ascii.compare c2 c3) eqn:E23; try discriminate; intros H1 H2.
  - apply Ascii.compare_eq_iff in E12, E23. subst.
    replace (Ascii.compare c3 c3) with Eq
      by (unfold Ascii.compare; now rewrite N.compare_refl).
    eauto.
  - apply Ascii.compare_eq_iff in E12. subst. now rewrite E23.
  - apply Ascii.compare_eq_iff in E23. subst. now rewrite E12.
  - now rewrite (ascii_compare_lt_trans _ _ _ E12 E23).
Qed.

Lemma string_leb_trans (a b c : string) :
  String.leb a b = true -> String.leb b c = true -> String.leb a c = true.
Proof.
  unfold String.leb.
  destruct (String.compare a b) eqn:Eab; try discriminate;
    destruct (String.compare b c) eqn:Ebc; try discriminate; intros _ _.
  - apply String.compare_eq_iff in Eab, Ebc. subst.
    now rewrite string_compare_refl.
  - apply String.compare_eq_iff in Eab. subst. now rewrite Ebc.
  - apply String.compare_eq_iff in Ebc. subst. now rewrite Eab.
  - now rewrite (string_compare_lt_trans _ _ _ Eab Ebc).
Qed.

#[export] Instance OrdLaws_string : OrdLaws string.
Proof.
  split; simpl.
  - apply String.leb_total.
  - apply string_leb_trans.
  - apply String.leb_antisym.
Qed.

Lemma pair_leb_total {A B} `{Ord A} `{!OrdLaws A} `{Ord B} `{!OrdLaws B} (x y : A * B) :
  pair_leb x y = true \/ pair_leb y x = true.
Proof.
  destruct x as [a b], y as [a' b']. unfold pair_leb. simpl.
  destruct (key_eqb a a') eqn:E.
  - apply key_eqb_eq in E. subst. rewrite key_eqb_refl. apply leb_total.
  - assert (key_eqb a' a = false) as ->.
    { apply key_eqb_neq. apply key_eqb_neq in E. congruence. }
    apply leb_total.
Qed.

Lemma pair_leb_trans {A B} `{Ord A} `{!OrdLaws A} `{Ord B} `{!OrdLaws B} (x y z : A * B) :
  pair_leb x y = true -> pair_leb y z = true -> pair_leb x z = true.
Proof.
  destruct x as [a b], y as [a' b'], z as [a'' b'']. unfold pair_leb. simpl.
  destruct (key_eqb a a') eqn:E1.
  - apply key_eqb_eq in E1. subst a'.
    destruct (key_eqb a a'') eqn:E2; [apply leb_trans | auto].
  - destruct (key_eqb a' a'') eqn:E2.
    + apply key_eqb_eq in E2. subst a''. rewrite E1. auto.
    + intros H1 H2. destruct (key_eqb a a'') eqn:E3.
      * apply key_eqb_eq in E3. subst a''.
        apply key_eqb_neq in E1. destruct E1. now apply leb_antisym.
      * exact (leb_trans _ _ _ H1 H2).
Qed.

Lemma pair_leb_antisym {A B} `{Ord A} `{!OrdLaws A} `{Ord B} `{!OrdLaws B} (x y : A * B) :
  pair_leb x y = true -> pair_leb y x = true -> x = y.
Proof.
  destruct x as [a b], y as [a' b']. unfold pair_leb. simpl.
  destruct (key_eqb a a') eqn:E.
  - apply key_eqb_eq in E. subst. rewrite key_eqb_refl.
    intros H1 H2. f_equal. now apply leb_antisym.
  - assert (key_eqb a' a = false) as ->.
    { apply key_eqb_neq. apply key_eqb_neq in E. congruence. }
    intros H1 H2. apply key_eqb_neq in E. destruct E. now apply leb_antisym.
Qed.

#[export] Instance OrdLaws_pair {A B} `{Ord A} `{!OrdLaws A} `{Ord B} `{!OrdLaws B} :
  OrdLaws (A * B).
Proof.
  split; simpl.
  - apply pair_leb_total.
  - apply pair_leb_trans.
  - apply pair_leb_antisym.
Qed.

(** ** Properties of [groupby] *)

Section GroupByFacts.
Context {K R : Type} `{Ord K} `{!OrdLaws K}.
Variable by_key : R -> option K.

Lemma has_key_iff (k : K) (r : R) : has_key by_key k r = true <-> by_key r = Some k.
Proof.
  unfold has_key. destruct (by_key r) as [k'|]; [|split; discriminate].
  rewrite key_eqb_eq. split; congruence.
Qed.

Lemma group_rows_add_same (k : K) (r : R) (gs : list (K * list R)) :
  group_rows k (add_to_group k r gs) = group_rows k gs ++ [r].
Proof.
  unfold group_rows.
  induction gs as [|[k' rs] gs IH]; simpl.
  - now rewrite key_eqb_refl.
  - destruct (key_eqb k k') eqn:E; simpl; rewrite E; auto.
Qed.

Lemma group_rows_add_other (k k' : K) (r : R) (gs : list (K * list R)) :
  k <> k' -> group_rows k' (add_to_group k r gs) = group_rows k' gs.
Proof.
  intros Hne. unfold group_rows.
  assert (key_eqb k' k = false) as Hf by (apply key_eqb_neq; congruence).
  induction gs as [|[k1 rs] gs IH]; simpl.
  - now rewrite Hf.
  - destruct (key_eqb k k1) eqn:E; simpl.
    + apply key_eqb_eq in E. subst k1. now rewrite Hf.
    + destruct (key_eqb k' k1); auto.
Qed.

Lemma keys_add_to_group (k k' : K) (r : R) (gs : list (K * list R)) :
  In k' (map fst (add_to_group k r gs)) <-> k' = k \/ In k' (map fst gs).
Proof.
  induction gs as [|[k1 rs] gs IH]; simpl.
  - intuition.
  - destruct (key_eqb k k1) eqn:E; simpl.
    + apply key_eqb_eq in E. subst k1. intuition.
    + rewrite IH. intuition.
Qed.

Lemma NoDup_add_to_group (k : K) (r : R) (gs : list (K * list R)) :
  NoDup (map fst gs) -> NoDup (map fst (add_to_group k r gs)).
Proof.
  induction gs as [|[k1 rs] gs IH]; simpl; intros Hnd.
  - constructor; [intros []|constructor].
  - destruct (key_eqb k k1) eqn:E; simpl; [exact Hnd|].
    inversion Hnd as [|? ? Hnin Hnd']; subst. constructor; auto.
    rewrite keys_add_to_group. intros [->|Hin]; [|contradiction].
    now rewrite key_eqb_refl in E.
Qed.

Lemma split_groups_snoc (rows : list R) (r : R) :
  split_groups by_key (rows ++ [r]) = split_step by_key (split_groups by_key rows) r.
Proof. unfold split_groups. now rewrite fold_left_app. Qed.

Lemma group_rows_split (k : K) (rows : list R) :
  group_rows k (split_groups by_key rows) = filter (has_key by_key k) rows.
Proof.
  induction rows as [|r rows IH] using rev_ind; [reflexivity|].
  rewrite split_groups_snoc, filter_app. simpl.
  unfold split_step, has_key at 2.
  destruct (by_key r) as [k'|]; [|now rewrite app_nil_r].
  destruct (key_eqb k k') eqn:E.
  - apply key_eqb_eq in E. subst k'. now rewrite group_rows_add_same, IH.
  - apply key_eqb_neq in E. rewrite group_rows_add_other by congruence.
    now rewrite IH, app_nil_r.
Qed.

Lemma keys_split (k : K) (rows : list R) :
  In k (map fst (split_groups by_key rows)) <->
  exists r, In r rows /\ by_key r = Some k.
Proof.
  induction rows as [|r rows IH] using rev_ind.
  - simpl. split; [intros []|intros (r & [] & _)].
  - rewrite split_groups_snoc. unfold split_step.
    destruct (by_key r) as [k'|] eqn:E.
    + rewrite keys_add_to_group, IH. split.
      * intros [->|(r' & Hin & Hk)].
        -- exists r. split; [apply in_or_app; right; now left|assumption].
        -- exists r'. split; [apply in_or_app; now left|assumption].
      * intros (r' & Hin & Hk). apply in_app_or in Hin as [Hin|[->|[]]].
        -- right. now exists r'.
        -- left. congruence.
    + rewrite IH. split.
      * intros (r' & Hin & Hk). exists r'. split; [apply in_or_app; now left|assumption].
      * intros (r' & Hin & Hk). apply in_app_or in Hin as [Hin|[->|[]]].
        -- now exists r'.
        -- congruence.
Qed.

Lemma NoDup_split (rows : list R) : NoDup (map fst (split_groups by_key rows)).
Proof.
  induction rows as [|r rows IH] using rev_ind; [constructor|].
  rewrite split_groups_snoc. unfold split_step.
  destruct (by_key r); [now apply NoDup_add_to_group|assumption].
Qed.

(** In a table with distinct keys, the entry of a key is what a lookup
    finds. *)
Lemma NoDup_keys_find {V} (k : K) (v : V) (l : list (K * V)) :
  NoDup (map fst l) -> In (k, v) l ->
  find (fun g => key_eqb k (fst g)) l = Some (k, v).
Proof.
  induction l as [|[k1 v1] l IH]; simpl; intros Hnd Hin; [contradiction|].
  inversion Hnd as [|? ? Hnin Hnd']; subst.
  destruct Hin as [Heq|Hin].
  - inversion Heq; subst. now rewrite key_eqb_refl.
  - destruct (key_eqb k k1) eqn:E; [|auto].
    apply key_eqb_eq in E. subst k1. destruct Hnin.
    change k with (fst (k, v)). now apply in_map.
Qed.

Lemma find_key_In {V} (k : K) (g : K * V) (l : list (K * V)) :
  find (fun g => key_eqb k (fst g)) l = Some g -> In g l /\ fst g = k.
Proof.
  intros Hf. apply find_some in Hf as [Hin Hk]. apply key_eqb_eq in Hk. auto.
Qed.

Lemma split_groups_In (k : K) (rs : list R) (rows : list R) :
  In (k, rs) (split_groups by_key rows) <->
  rs = filter (has_key by_key k) rows /\ exists r, In r rows /\ by_key r = Some k.
Proof.
  split.
  - intros Hin. split.
    + rewrite <- group_rows_split. unfold group_rows.
      now rewrite (NoDup_keys_find k rs _ (NoDup_split rows) Hin).
    + apply keys_split. change k with (fst (k, rs)). now apply in_map.
  - intros [-> Hex]. apply keys_split in Hex.
    apply in_map_iff in Hex as ([k' rs] & Hk & Hin). simpl in Hk. subst k'.
    pose proof (group_rows_split k rows) as Hg. unfold group_rows in Hg.
    rewrite (NoDup_keys_find k rs _ (NoDup_split rows) Hin) in Hg.
    simpl in Hg. now subst rs.
Qed.

(** Sorting permutes the groups and orders them by key. *)
Lemma insert_group_perm {V} (g : K * V) (l : list (K * V)) :
  Permutation (insert_group g l) (g :: l).
Proof.
  induction l as [|h t IH]; simpl; [reflexivity|].
  destruct (leb (fst g) (fst h)); [reflexivity|].
  rewrite IH. apply perm_swap.
Qed.

Lemma sort_groups_perm {V} (l : list (K * V)) : Permutation (sort_groups l) l.
Proof.
  induction l as [|g t IH]; simpl; [reflexivity|].
  rewrite insert_group_perm. now constructor.
Qed.

Lemma insert_group_sorted {V} (g : K * V) (l : list (K * V)) :
  StronglySorted key_le l -> StronglySorted key_le (insert_group g l).
Proof.
  induction l as [|h t IH]; simpl; intros Hs.
  - constructor; constructor.
  - inversion Hs as [|? ? Hst Hall]; subst.
    destruct (leb (fst g) (fst h)) eqn:E.
    + constructor; [assumption|]. constructor; [exact E|].
      eapply Forall_impl; [|exact Hall].
      intros x Hx. unfold key_le in *. eapply leb_trans; eassumption.
    + constructor; [auto|].
      eapply Permutation_Forall; [symmetry; apply insert_group_perm|].
      constructor; [|assumption].
      unfold key_le. destruct (leb_total (fst g) (fst h)); congruence.
Qed.

Lemma sort_groups_sorted {V} (l : list (K * V)) :
  StronglySorted key_le (sort_groups l).
Proof.
  induction l as [|g t IH]; simpl; [constructor|now apply insert_group_sorted].
Qed.

Lemma groupby_In (k : K) (rs : list R) (rows : list R) :
  In (k, rs) (groupby by_key rows) <->
  rs = filter (has_key by_key k) rows /\ exists r, In r rows /\ by_key r = Some k.
Proof.
  rewrite <- split_groups_In. unfold groupby.
  split; apply Permutation_in;
    [apply sort_groups_perm | symmetry; apply sort_groups_perm].
Qed.

Lemma groupby_NoDup (rows : list R) : NoDup (map fst (groupby by_key rows)).
Proof.
  unfold groupby. eapply Permutation_NoDup; [|apply NoDup_split].
  apply Permutation_map. symmetry. apply sort_groups_perm.
Qed.

Lemma groupby_sorted (rows : list R) : StronglySorted key_le (groupby by_key rows).
Proof. apply sort_groups_sorted. Qed.

(** A sorted table with distinct keys is strictly sorted. *)
Lemma sorted_NoDup_strict {V} (l : list (K * V)) :
  StronglySorted key_le l -> NoDup (map fst l) -> StronglySorted key_lt l.
Proof.
  induction l as [|h t IH]; intros Hs Hnd; [constructor|].
  inversion Hs as [|? ? Hst Hall]; subst.
  simpl in Hnd. inversion Hnd as [|? ? Hnin Hnd']; subst.
  constructor; [auto|].
  rewrite Forall_forall in *. intros x Hx. split; [now apply Hall|].
  intros Heq. apply Hnin. rewrite Heq. now apply in_map.
Qed.

(** Two strictly sorted tables with the same entries are the same
    table. *)
Lemma strict_sorted_ext {V} (l1 : list (K * V)) :
  forall l2,
    StronglySorted key_lt l1 -> StronglySorted key_lt l2 ->
    (forall x, In x l1 <-> In x l2) -> l1 = l2.
Proof.
  induction l1 as [|h1 t1 IH]; intros [|h2 t2] Hs1 Hs2 Hiff.
  - reflexivity.
  - destruct (proj2 (Hiff h2)); now left.
  - destruct (proj1 (Hiff h1)); now left.
  - inversion Hs1 as [|? ? Hst1 Hall1]; subst.
    inversion Hs2 as [|? ? Hst2 Hall2]; subst.
    rewrite Forall_forall in Hall1, Hall2.
    assert (h1 = h2) as ->.
    { destruct (proj1 (Hiff h1) (or_introl eq_refl)) as [E|Hin1]; [now symmetry|].
      destruct (proj2 (Hiff h2) (or_introl eq_refl)) as [E|Hin2]; [assumption|].
      destruct (Hall1 _ Hin2) as [Hle1 Hne], (Hall2 _ Hin1) as [Hle2 _].
      destruct Hne. now apply leb_antisym. }
    f_equal. apply IH; auto.
    intros x. split; intros Hin.
    + destruct (proj1 (Hiff x) (or_intror Hin)) as [E|Hin']; [|assumption].
      subst x. destruct (Hall1 _ Hin) as [_ Hne]. now destruct Hne.
    + destruct (proj2 (Hiff x) (or_intror Hin)) as [E|Hin']; [|assumption].
      subst x. destruct (Hall2 _ Hin) as [_ Hne]. now destruct Hne.
Qed.
End GroupByFacts.

#[export] Instance OrdLaws_Timestamp : OrdLaws Timestamp := OrdLaws_Z.

(** ** Properties of the status rule *)

Lemma f_ge_Fin (a b : Q) : f_ge (Fin a) (Fin b) = true <-> (b <= a)%Q.
Proof. simpl. apply Qle_bool_iff. Qed.

Lemma f_ge_Fin_false (a b : Q) : f_ge (Fin a) (Fin b) = false <-> (a < b)%Q.
Proof.
  simpl. split.
  - intros Hf. apply Qnot_le_lt. intros Hle.
    apply Qle_bool_iff in Hle. congruence.
  - intros Hlt. destruct (Qle_bool b a) eqn:E; [|reflexivity].
    apply Qle_bool_iff in E. exfalso. exact (Qlt_not_le _ _ Hlt E).
Qed.

Lemma f_lt_Fin (a b : Q) : f_lt (Fin a) (Fin b) = true <-> (a < b)%Q.
Proof.
  simpl. rewrite negb_true_iff. apply (f_ge_Fin_false a b).
Qed.

Lemma f_lt_not_ge (x y : float64) : f_lt x y = true -> f_ge x y = false.
Proof.
  destruct x, y; simpl; try discriminate. now rewrite negb_true_iff.
Qed.

Lemma f_ge_NaN (y : float64) : f_ge NaN y = false.
Proof. reflexivity. Qed.

Lemma f_lt_NaN (y : float64) : f_lt NaN y = false.
Proof. reflexivity. Qed.

(** Below 85 the rule only looks at the clock. *)
Lemma derive_status_flag_below_85 (now : Timestamp) (row : summary) :
  f_lt (ps_Completion_pct row) (Fin 85) = true ->
  derive_status_flag now row =
    if (ps_Expected_Completion row <? now)%Z then "Delayed" else "Paused".
Proof.
  intros Hlt. unfold derive_status_flag.
  rewrite (f_lt_not_ge _ _ Hlt), Hlt.
  destruct (ps_Completion_pct row) as [|q]; [discriminate|].
  apply f_lt_Fin in Hlt.
  assert (f_ge (Fin q) (Fin 99.9) = false) as ->.
  { apply f_ge_Fin_false. eapply Qlt_trans; [exact Hlt|reflexivity]. }
  reflexivity.
Qed.

Lemma aggregate_due_day_20000 :
  aggregate_project_progress [record_due_day_20000] = [row_due_day_20000].
Proof. reflexivity. Qed.

(** C1, as stated, fails: at noon of the day a record is due, the record
    (completion 84.99, due date read as midnight of that day) is
    classified "Delayed", because the due timestamp is strictly before the
    clock reading although both fall on the same calendar day. *)
Lemma C1_due_today_counterexample : ~ due_today_is_paused.
Proof.
  intros Hclaim.
  specialize (Hclaim [record_due_day_20000] noon_day_20000 row_due_day_20000).
  rewrite aggregate_due_day_20000 in Hclaim.
  specialize (Hclaim (or_introl eq_refl) eq_refl eq_refl).
  vm_compute in Hclaim. discriminate Hclaim.
Qed.

(** C1, amended: for a record with completion below 85 whose expected
    completion timestamp is equal to, or later than, the clock reading
    [pd.Timestamp.today()] (date and time of day), the rule answers
    "Paused": the comparison is a strict less-than between timestamps. *)
Theorem C1_not_before_now_is_paused (now : Timestamp) (row : summary) :
  f_lt (ps_Completion_pct row) (Fin 85) = true ->
  (now <= ps_Expected_Completion row)%Z ->
  derive_status_flag now row = "Paused".
Proof.
  intros Hlt Hle. rewrite (derive_status_flag_below_85 now row Hlt).
  apply Z.ltb_ge in Hle. now rewrite Hle.
Qed.

Lemma C1_not_before_now_is_paused_witness :
  derive_status_flag (midnight 20000) row_due_day_20000 = "Paused".
Proof.
  apply (C1_not_before_now_is_paused (midnight 20000) row_due_day_20000).
  - reflexivity.
  - simpl. lia.
Defined.

(** The other side of the strict comparison: a due timestamp before the
    clock reading is "Delayed", whatever the calendar day. *)
Lemma before_now_is_delayed (now : Timestamp) (row : summary) :
  f_lt (ps_Completion_pct row) (Fin 85) = true ->
  (ps_Expected_Completion row < now)%Z ->
  derive_status_flag now row = "Delayed".
Proof.
  intros Hlt Hb. rewrite (derive_status_flag_below_85 now row Hlt).
  apply Z.ltb_lt in Hb. now rewrite Hb.
Qed.

(** C2: the first two branches, in order, with inclusive boundaries: a
    completion of at least 99.9 is "Completed", one of at least 85 and
    below 99.9 is "On Track", whatever the expected completion and the
    clock. *)
Theorem C2_completed_on_track (now : Timestamp) (row : summary) (q : Q) :
  ps_Completion_pct row = Fin q ->
  ((99.9 <= q)%Q -> derive_status_flag now row = "Completed") /\
  ((85 <= q)%Q -> (q < 99.9)%Q -> derive_status_flag now row = "On Track").
Proof.
  intros Hq. unfold derive_status_flag. rewrite Hq. split.
  - intros Hge. apply f_ge_Fin in Hge. now rewrite Hge.
  - intros Hge Hlt. apply f_ge_Fin_false in Hlt. apply f_ge_Fin in Hge.
    now rewrite Hlt, Hge.
Qed.

Lemma C2_completed_on_track_witness :
  derive_status_flag 0
    (mk_summary "Bridge A" "Critical" "PWD" "Roads" "A. Verma"
                (midnight 20000) (Fin 99.9) None) = "Completed" /\
  derive_status_flag (midnight 30000)
    (mk_summary "Bridge A" "Critical" "PWD" "Roads" "A. Verma"
                (midnight 20000) (Fin 85) None) = "On Track".
Proof.
  split.
  - apply (C2_completed_on_track 0
             (mk_summary "Bridge A" "Critical" "PWD" "Roads" "A. Verma"
                         (midnight 20000) (Fin 99.9) None) 99.9 eq_refl).
    discriminate.
  - apply (C2_completed_on_track (midnight 30000)
             (mk_summary "Bridge A" "Critical" "PWD" "Roads" "A. Verma"
                         (midnight 20000) (Fin 85) None) 85 eq_refl).
    + discriminate.
    + reflexivity.
Defined.

Lemma derive_status_flag_labels (now : Timestamp) (row : summary) :
  derive_status_flag now row = "Completed" \/
  derive_status_flag now row = "On Track" \/
  derive_status_flag now row = "Delayed" \/
  derive_status_flag now row = "Paused".
Proof.
  unfold derive_status_flag.
  destruct (f_ge _ (Fin 99.9)); [now left|].
  destruct (f_ge _ (Fin 85)); [right; now left|].
  destruct (_ && _); [right; right; now left|right; right; now right].
Qed.

Lemma status_count_apply_from (clock : nat -> Timestamp) (rows : list summary) :
  forall i status,
    (forall now row, derive_status_flag now row <> status) ->
    status_count (apply_from clock i rows) status = 0%nat.
Proof.
  unfold status_count.
  induction rows as [|row rows IH]; intros i status Hne; simpl; [reflexivity|].
  destruct (String.eqb_spec (derive_status_flag (clock i) row) status) as [E|_].
  - now destruct (Hne (clock i) row).
  - now apply IH.
Qed.

(** C6: the rule answers one of "Completed", "On Track", "Delayed",
    "Paused", never "Out of Scope", so the card that counts the derived
    status "Out of Scope" shows zero for every [proj_summary]. *)
Theorem C6_never_out_of_scope :
  (forall now row,
      (derive_status_flag now row = "Completed" \/
       derive_status_flag now row = "On Track" \/
       derive_status_flag now row = "Delayed" \/
       derive_status_flag now row = "Paused") /\
      derive_status_flag now row <> "Out of Scope") /\
  (forall clock proj_summary,
      status_count (with_derived_status clock proj_summary) "Out of Scope" = 0%nat).
Proof.
  assert (forall now row, derive_status_flag now row <> "Out of Scope") as Hne.
  { intros now row.
    destruct (derive_status_flag_labels now row) as [E|[E|[E|E]]];
      rewrite E; discriminate. }
  split.
  - intros now row. split; [apply derive_status_flag_labels|apply Hne].
  - intros clock proj_summary. now apply status_count_apply_from.
Qed.

(** ** Properties of the reductions *)

Lemma mean_loop (vals : list float64) :
  forall s n,
    (fst (fold_left mean_step vals (s, n)) == s + Qsum (present vals))%Q /\
    snd (fold_left mean_step vals (s, n)) = (n + List.length (present vals))%nat.
Proof.
  induction vals as [|[|q] vals IH]; intros s n; simpl.
  - split; [ring | lia].
  - apply IH.
  - destruct (IH (s + q)%Q (S n)) as [Hs Hn]. split.
    + rewrite Hs. ring.
    + rewrite Hn. lia.
Qed.

Lemma group_mean_arithmetic (vals : list float64) :
  f_same (group_mean vals) (arithmetic_mean (present vals)).
Proof.
  unfold group_mean.
  destruct (mean_loop vals 0%Q 0%nat) as [Hs Hn].
  destruct (fold_left mean_step vals (0%Q, 0%nat)) as [sumx nobs].
  simpl in Hs, Hn. subst nobs.
  destruct (present vals) as [|x xs] eqn:E; simpl; [exact I|].
  rewrite Hs. simpl.
  match goal with |- (?a / ?d == ?b / ?d)%Q => assert (a == b)%Q as -> by ring end.
  reflexivity.
Qed.

Lemma group_mean_all_missing (vals : list float64) :
  (forall v, In v vals -> v = NaN) -> group_mean vals = NaN.
Proof.
  intros Hall.
  assert (forall acc, fold_left mean_step vals acc = acc) as Hfold.
  { induction vals as [|v vals IH]; intros acc; simpl; [reflexivity|].
    rewrite (Hall v (or_introl eq_refl)). simpl.
    apply IH. intros w Hw. apply Hall. now right. }
  unfold group_mean. now rewrite Hfold.
Qed.

Lemma group_last_last_present {A} (vals : list (option A)) :
  group_last vals = last_present vals.
Proof.
  unfold group_last, last_present.
  induction vals as [|v vals IH] using rev_ind; [reflexivity|].
  rewrite fold_left_app, filter_app. simpl.
  destruct v as [a|]; simpl.
  - now rewrite last_last.
  - now rewrite app_nil_r.
Qed.

(** ** Properties of [aggregate_project_progress] *)

Lemma ps_identity_reset_index (k : identity) (v : float64 * option string) :
  ps_identity (reset_index (k, v)) = k.
Proof.
  destruct k as [[[[[n c] d] sd] h] e], v as [m l]. reflexivity.
Qed.

Lemma aggregate_In (s : summary) (rows : list record) :
  In s (aggregate_project_progress rows) <->
  exists k, (exists r, In r rows /\ identity_of r = Some k) /\
            s = reset_index (k, mean_and_last (group_of k rows)).
Proof.
  unfold aggregate_project_progress, agg. rewrite map_map, in_map_iff. split.
  - intros ([k rs] & Hs & Hin). apply groupby_In in Hin as [-> Hex].
    exists k. now split.
  - intros (k & Hex & ->). exists (k, group_of k rows). split; [reflexivity|].
    apply groupby_In. now split.
Qed.

Lemma aggregate_keys (rows : list record) :
  map ps_identity (aggregate_project_progress rows) =
  map fst (groupby identity_of rows).
Proof.
  unfold aggregate_project_progress, agg. rewrite !map_map.
  apply map_ext. intros [k rs]. apply ps_identity_reset_index.
Qed.

Lemma aggregate_In_group (s : summary) (rows : list record) :
  In s (aggregate_project_progress rows) ->
  s = reset_index (ps_identity s, mean_and_last (group_of (ps_identity s) rows)).
Proof.
  intros Hin. apply aggregate_In in Hin as (k & _ & ->).
  now rewrite ps_identity_reset_index.
Qed.

Lemma ps_Completion_pct_reset_index (k : identity) (m : float64) (l : option string) :
  ps_Completion_pct (reset_index (k, (m, l))) = m.
Proof. destruct k as [[[[[n c] d] sd] h] e]. reflexivity. Qed.

Lemma ps_Status_Flag_reset_index (k : identity) (m : float64) (l : option string) :
  ps_Status_Flag (reset_index (k, (m, l))) = l.
Proof. destruct k as [[[[[n c] d] sd] h] e]. reflexivity. Qed.

(** How often a key occurs in a list of distinct keys. *)
Lemma NoDup_count {K} `{Ord K} `{!OrdLaws K} (k : K) (l : list K) :
  NoDup l ->
  List.length (filter (fun x => key_eqb x k) l) =
  if existsb (fun x => key_eqb x k) l then 1%nat else 0%nat.
Proof.
  induction l as [|x l IH]; intros Hnd; simpl; [reflexivity|].
  inversion Hnd as [|? ? Hnin Hnd']; subst.
  destruct (key_eqb x k) eqn:E; simpl.
  - apply key_eqb_eq in E. subst x. rewrite (IH Hnd').
    destruct (existsb (fun x => key_eqb x k) l) eqn:Ex; [|reflexivity].
    apply existsb_exists in Ex as (y & Hy & Hk).
    apply key_eqb_eq in Hk. subst y. contradiction.
  - now apply IH.
Qed.

Lemma existsb_keys_rows (k : identity) (rows : list record) :
  existsb (fun x => key_eqb x k) (map fst (groupby identity_of rows)) =
  existsb (has_key identity_of k) rows.
Proof.
  apply eq_true_iff_eq. rewrite !existsb_exists. split.
  - intros (x & Hin & Hk). apply key_eqb_eq in Hk. subst x.
    apply in_map_iff in Hin as ([k' rs] & Hk & Hin). simpl in Hk. subst k'.
    apply groupby_In in Hin as [_ (r & Hr & Hid)].
    exists r. split; [assumption|now apply has_key_iff].
  - intros (r & Hr & Hk). apply has_key_iff in Hk.
    exists k. split; [|apply key_eqb_refl].
    apply in_map_iff. exists (k, group_of k rows). split; [reflexivity|].
    apply groupby_In. split; [reflexivity|now exists r].
Qed.

(** C3, as stated, fails: a frame made of one row whose sub-department is
    missing has that key tuple in the input and no record in the output. *)
Lemma C3_missing_key_counterexample : ~ one_record_per_input_key.
Proof.
  intros Hclaim.
  destruct (Hclaim [row_no_sub_department] row_no_sub_department
                   (or_introl eq_refl)) as (s & Hin & _).
  vm_compute in Hin. exact Hin.
Qed.

Lemma identity_of_key_cells (r : record) (k : identity) (v : float64 * option string) :
  identity_of r = Some k -> key_cells r = ps_key_cells (reset_index (k, v)).
Proof.
  unfold identity_of, key_cells.
  destruct (Project_Name r), (Project_category r), (Department r),
    (Sub_department r), (Department_Head r), (Expected_Completion r);
    try discriminate.
  intros E. inversion E; subst. destruct v. reflexivity.
Qed.

(** C3, amended: the output holds exactly one record for each six-field
    identity key carried, with all six fields present, by some input row,
    and no record for any other key; the six key cells of a record are
    those of an input row, unchanged. *)
Theorem C3_one_record_per_complete_key (rows : list record) :
  (forall k : identity,
      List.length (filter (fun s => key_eqb (ps_identity s) k)
                          (aggregate_project_progress rows)) =
      if existsb (fun r => has_key identity_of k r) rows then 1%nat else 0%nat) /\
  (forall s, In s (aggregate_project_progress rows) ->
             exists r, In r rows /\ key_cells r = ps_key_cells s).
Proof.
  split.
  - intros k.
    rewrite <- existsb_keys_rows.
    rewrite <- (NoDup_count k _ (groupby_NoDup identity_of rows)).
    rewrite <- aggregate_keys.
    generalize (aggregate_project_progress rows) as out.
    induction out as [|s out IH]; simpl; [reflexivity|].
    destruct (key_eqb (ps_identity s) k); simpl; now rewrite IH.
  - intros s Hin. apply aggregate_In in Hin as (k & (r & Hr & Hk) & ->).
    exists r. split; [assumption|now apply identity_of_key_cells].
Qed.

Lemma C3_one_record_per_complete_key_witness :
  List.length (filter (fun s => key_eqb (ps_identity s) (ps_identity bridge_a_summary))
                      (aggregate_project_progress
                         [bridge_a_80; row_no_sub_department; bridge_a_90_no_flag])) = 1%nat /\
  exists r, In r [bridge_a_80; row_no_sub_department; bridge_a_90_no_flag] /\
            key_cells r = ps_key_cells bridge_a_summary.
Proof.
  split.
  - apply (proj1 (C3_one_record_per_complete_key
                    [bridge_a_80; row_no_sub_department; bridge_a_90_no_flag])
                 (ps_identity bridge_a_summary)).
  - apply (proj2 (C3_one_record_per_complete_key
                    [bridge_a_80; row_no_sub_department; bridge_a_90_no_flag])
                 bridge_a_summary).
    vm_compute. now left.
Defined.

Lemma bridge_a_aggregate :
  aggregate_project_progress [bridge_a_80; bridge_a_90_no_flag] = [bridge_a_summary].
Proof. reflexivity. Qed.

(** C4: the completion of an aggregated record is the arithmetic mean of
    the completion values of the input rows of its identity group, the
    missing values left out of the sum and of the count (and NaN when the
    group has no value). *)
Theorem C4_mean_of_group (rows : list record) (s : summary) :
  In s (aggregate_project_progress rows) ->
  f_same (ps_Completion_pct s)
         (arithmetic_mean
            (present (map Completion_pct (group_of (ps_identity s) rows)))).
Proof.
  intros Hin. rewrite (aggregate_In_group s rows Hin) at 1.
  unfold mean_and_last. rewrite ps_Completion_pct_reset_index.
  apply group_mean_arithmetic.
Qed.

Lemma C4_mean_of_group_witness :
  f_same (ps_Completion_pct bridge_a_summary)
         (arithmetic_mean
            (present (map Completion_pct
                          (group_of (ps_identity bridge_a_summary)
                                    [bridge_a_80; bridge_a_90_no_flag])))).
Proof.
  apply (C4_mean_of_group [bridge_a_80; bridge_a_90_no_flag] bridge_a_summary).
  rewrite bridge_a_aggregate. now left.
Defined.

(** C5, as stated, fails: when the last row of a group has an empty status
    cell, the aggregated flag is the one of an earlier row ("Delayed"
    here), not the missing flag of the last row. *)
Lemma C5_last_row_counterexample : ~ flag_of_last_row.
Proof.
  intros Hclaim.
  specialize (Hclaim [bridge_a_80; bridge_a_90_no_flag] bridge_a_summary).
  rewrite bridge_a_aggregate in Hclaim.
  specialize (Hclaim (or_introl eq_refl)).
  vm_compute in Hclaim. discriminate Hclaim.
Qed.

(** C5, amended: the raw status flag of an aggregated record is the flag
    of the last row of its group, in input order, among the rows whose
    flag is not missing (and is missing when the group has no flag). *)
Theorem C5_last_present_flag (rows : list record) (s : summary) :
  In s (aggregate_project_progress rows) ->
  ps_Status_Flag s =
  last_present (map Status_Flag (group_of (ps_identity s) rows)).
Proof.
  intros Hin. rewrite (aggregate_In_group s rows Hin) at 1.
  unfold mean_and_last. rewrite ps_Status_Flag_reset_index.
  apply group_last_last_present.
Qed.

Lemma C5_last_present_flag_witness :
  ps_Status_Flag bridge_a_summary =
  last_present (map Status_Flag
                    (group_of (ps_identity bridge_a_summary)
                              [bridge_a_80; bridge_a_90_no_flag])).
Proof.
  apply (C5_last_present_flag [bridge_a_80; bridge_a_90_no_flag] bridge_a_summary).
  rewrite bridge_a_aggregate. now left.
Defined.

(** When no flag of the group is missing, the flag is the one of the last
    row. *)
Lemma last_present_all {A} (vals : list (option A)) :
  (forall v, In v vals -> is_present v = true) ->
  last_present vals = List.last vals None.
Proof.
  intros Hall. unfold last_present. f_equal.
  induction vals as [|v vals IH]; simpl; [reflexivity|].
  rewrite (Hall v (or_introl eq_refl)). f_equal.
  apply IH. intros w Hw. apply Hall. now right.
Qed.

Lemma missing_key_cell_identity (r : record) :
  missing_key_cell r <-> identity_of r = None.
Proof.
  unfold missing_key_cell, identity_of.
  destruct (Project_Name r), (Project_category r), (Department r),
    (Sub_department r), (Department_Head r), (Expected_Completion r);
    split; intros Hm; try reflexivity; try discriminate;
    try (now repeat (destruct Hm as [Hm|Hm]; try discriminate));
    tauto.
Qed.

Lemma split_groups_drop (rows1 rows2 : list record) (r : record) :
  identity_of r = None ->
  split_groups identity_of (rows1 ++ r :: rows2) =
  split_groups identity_of (rows1 ++ rows2).
Proof.
  intros Hnone. unfold split_groups. rewrite !fold_left_app. simpl.
  unfold split_step at 2. now rewrite Hnone.
Qed.

(** C9: a row with a missing key cell leaves no trace: the aggregate of a
    frame is the aggregate of the frame without that row, and so are the
    number of projects and every status count. *)
Theorem C9_missing_key_row_dropped
  (rows1 rows2 : list record) (r : record) :
  missing_key_cell r ->
  aggregate_project_progress (rows1 ++ r :: rows2) =
    aggregate_project_progress (rows1 ++ rows2) /\
  (forall s, In s (aggregate_project_progress (rows1 ++ r :: rows2)) ->
             ps_key_cells s <> key_cells r) /\
  List.length (aggregate_project_progress (rows1 ++ r :: rows2)) =
    List.length (aggregate_project_progress (rows1 ++ rows2)) /\
  (forall clock status,
      status_count (with_derived_status clock
                      (aggregate_project_progress (rows1 ++ r :: rows2))) status =
      status_count (with_derived_status clock
                      (aggregate_project_progress (rows1 ++ rows2))) status).
Proof.
  intros Hm.
  assert (aggregate_project_progress (rows1 ++ r :: rows2) =
          aggregate_project_progress (rows1 ++ rows2)) as Heq.
  { unfold aggregate_project_progress, groupby.
    rewrite split_groups_drop; [reflexivity|].
    now apply missing_key_cell_identity. }
  split; [exact Heq|]. split; [|split].
  - intros s _ Hcells. unfold ps_key_cells, key_cells in Hcells.
    inversion Hcells as [[H1 H2 H3 H4 H5 H6]].
    destruct Hm as [Hm|[Hm|[Hm|[Hm|[Hm|Hm]]]]]; congruence.
  - now rewrite Heq.
  - intros clock status. now rewrite Heq.
Qed.

Lemma C9_missing_key_row_dropped_witness :
  aggregate_project_progress ([bridge_a_80] ++ row_no_sub_department :: [bridge_a_90_no_flag]) =
  aggregate_project_progress ([bridge_a_80] ++ [bridge_a_90_no_flag]).
Proof.
  apply (C9_missing_key_row_dropped [bridge_a_80] [bridge_a_90_no_flag]
                                    row_no_sub_department).
  right. right. right. left. reflexivity.
Defined.

(** C10: when every completion value of a group is missing, the mean of
    the group is NaN and the record is "Paused" whatever its expected
    completion and whatever the clock: the three comparisons with NaN are
    false. *)
Theorem C10_all_missing_is_paused
  (rows : list record) (s : summary) (now : Timestamp) :
  In s (aggregate_project_progress rows) ->
  (forall r, In r rows -> identity_of r = Some (ps_identity s) ->
             Completion_pct r = NaN) ->
  ps_Completion_pct s = NaN /\ derive_status_flag now s = "Paused".
Proof.
  intros Hin Hall.
  assert (ps_Completion_pct s = NaN) as HNaN.
  { rewrite (aggregate_In_group s rows Hin).
    unfold mean_and_last. rewrite ps_Completion_pct_reset_index.
    apply group_mean_all_missing. intros v Hv.
    apply in_map_iff in Hv as (r & <- & Hr).
    unfold group_of in Hr. apply filter_In in Hr as [Hr Hk].
    apply Hall; [assumption|now apply has_key_iff]. }
  split; [exact HNaN|].
  unfold derive_status_flag. now rewrite HNaN.
Qed.

Lemma C10_all_missing_is_paused_witness :
  ps_Completion_pct bridge_b_summary = NaN /\
  derive_status_flag (midnight 20000) bridge_b_summary = "Paused".
Proof.
  apply (C10_all_missing_is_paused
           [bridge_a_80; bridge_b_no_value; bridge_b_no_value]
           bridge_b_summary (midnight 20000)).
  - vm_compute. right. now left.
  - intros r [<-|[<-|[<-|[]]]]; [discriminate|reflexivity|reflexivity].
Defined.

(** ** Properties of the timeline trend *)

Section AggFacts.
Context {K R V : Type} `{Ord K} `{!OrdLaws K}.
Variable by_key : R -> option K.
Variable f : list R -> V.

Lemma agg_keys (gs : list (K * list R)) : map fst (agg f gs) = map fst gs.
Proof. unfold agg. rewrite map_map. reflexivity. Qed.

Lemma agg_In (k : K) (v : V) (rows : list R) :
  In (k, v) (agg f (groupby by_key rows)) <->
  v = f (filter (has_key by_key k) rows) /\
  exists r, In r rows /\ by_key r = Some k.
Proof.
  unfold agg. rewrite in_map_iff. split.
  - intros ([k' rs] & Heq & Hin). simpl in Heq. inversion Heq; subst.
    apply groupby_In in Hin as [-> Hex]. now split.
  - intros [-> Hex]. exists (k, filter (has_key by_key k) rows).
    split; [reflexivity|]. apply groupby_In. now split.
Qed.

Lemma agg_sorted (gs : list (K * list R)) :
  StronglySorted key_le gs -> StronglySorted key_le (agg f gs).
Proof.
  induction 1 as [|g gs Hs IH Hall]; simpl; constructor; [assumption|].
  unfold agg. rewrite Forall_map. eapply Forall_impl; [|exact Hall].
  intros x Hx. exact Hx.
Qed.

Lemma agg_groupby_strict (rows : list R) :
  StronglySorted key_lt (agg f (groupby by_key rows)).
Proof.
  apply sorted_NoDup_strict.
  - apply agg_sorted, groupby_sorted.
  - rewrite agg_keys. apply groupby_NoDup.
Qed.
End AggFacts.

Lemma StronglySorted_filter {A} (Rel : A -> A -> Prop) (p : A -> bool) (l : list A) :
  StronglySorted Rel l -> StronglySorted Rel (filter p l).
Proof.
  induction 1 as [|x l Hs IH Hall]; simpl; [constructor|].
  destruct (p x); [|assumption].
  constructor; [assumption|].
  rewrite Forall_forall in *. intros y Hy. apply Hall.
  now apply filter_In in Hy as [Hy _].
Qed.

Lemma StronglySorted_map_on {A B} (RA : A -> A -> Prop) (RB : B -> B -> Prop)
      (P : A -> Prop) (g : A -> B) (l : list A) :
  (forall x y, P x -> P y -> RA x y -> RB (g x) (g y)) ->
  Forall P l -> StronglySorted RA l -> StronglySorted RB (map g l).
Proof.
  intros Hmono HP Hs. induction Hs as [|x l Hs IH Hall]; simpl; [constructor|].
  inversion HP as [|? ? Px HP']; subst.
  constructor; [now apply IH|].
  rewrite Forall_map. rewrite Forall_forall in *.
  intros y Hy. apply Hmono; auto.
Qed.

Lemma filter_twice {A} (p q : A -> bool) (l : list A) :
  filter p (filter q l) = filter (fun x => q x && p x) l.
Proof.
  induction l as [|x l IH]; simpl; [reflexivity|].
  destruct (q x); simpl; [destruct (p x)|]; now rewrite IH.
Qed.

Lemma has_key_week_project_category (w : Z) (n c : string) (r : record) :
  has_key week_project_category (w, n, c) r =
  is_category c r && has_key week_project (w, n) r.
Proof.
  apply eq_true_iff_eq.
  rewrite andb_true_iff, !has_key_iff.
  unfold week_project_category, week_project, is_category.
  destruct (Week_Number r), (Project_Name r), (Project_category r);
    simpl; try (split; [discriminate|intros [? ?]; discriminate]).
  rewrite String.eqb_eq. split.
  - intros E. inversion E; subst. auto.
  - intros [-> E]. inversion E; subst. reflexivity.
Qed.

Lemma drop_category_strict (x y : Z * string * string * float64) (c : string) :
  in_category c x = true -> in_category c y = true ->
  key_lt x y -> key_lt (drop_category x) (drop_category y).
Proof.
  destruct x as [[k1 c1] v1], y as [[k2 c2] v2].
  unfold in_category, key_lt, drop_category. simpl.
  rewrite !String.eqb_eq. intros -> -> [Hle Hne].
  unfold pair_leb in Hle. simpl in Hle.
  destruct (key_eqb k1 k2) eqn:E.
  - apply key_eqb_eq in E. subst k2. now destruct Hne.
  - split; [exact Hle|]. now apply key_eqb_neq.
Qed.

(** C8: for the timeline, filtering the frame to the "Super Critical"
    rows and then taking the mean completion by week and project gives
    the same table as taking the mean by week, project and category over
    the whole frame and then keeping the "Super Critical" groups. *)
Theorem C8_filter_aggregate_commute (df : list record) :
  agg_tl (timeline_df df) = aggregate_then_filter df.
Proof.
  unfold agg_tl, aggregate_then_filter. f_equal.
  apply strict_sorted_ext.
  - apply agg_groupby_strict.
  - eapply StronglySorted_map_on with (P := fun g => in_category "Super Critical" g = true).
    + intros x y Hx Hy. now apply drop_category_strict with (c := "Super Critical").
    + apply Forall_forall. intros g Hg. now apply filter_In in Hg as [_ Hg].
    + apply StronglySorted_filter, agg_groupby_strict.
  - intros [[w n] v]. rewrite agg_In, in_map_iff. split.
    + intros [-> (r & Hr & Hk)].
      apply filter_In in Hr as [Hr Hc].
      exists (w, n, "Super Critical",
              mean_completion (filter (has_key week_project (w, n)) (timeline_df df))).
      split; [reflexivity|]. apply filter_In. split; [|reflexivity].
      apply agg_In. split.
      * unfold timeline_df. rewrite filter_twice. f_equal.
        apply filter_ext. intros x. symmetry.
        apply has_key_week_project_category.
      * exists r. split; [assumption|].
        apply has_key_iff. rewrite has_key_week_project_category, Hc. simpl.
        now apply has_key_iff.
    + intros ([[[w' n'] c] v'] & Heq & Hin).
      apply filter_In in Hin as [Hin Hc].
      unfold in_category in Hc. simpl in Hc. apply String.eqb_eq in Hc. subst c.
      unfold drop_category in Heq. simpl in Heq. inversion Heq; subst.
      apply agg_In in Hin as [-> (r & Hr & Hk)].
      apply has_key_iff in Hk. rewrite has_key_week_project_category in Hk.
      apply andb_true_iff in Hk as [Hc Hk]. split.
      * unfold timeline_df. rewrite filter_twice. f_equal.
        apply filter_ext. intros x. apply has_key_week_project_category.
      * exists r. split; [now apply filter_In|now apply has_key_iff].
Qed.

(** ** Properties of the heatmap section *)

Lemma timeline_section_run (df : list record) (page : list element) :
  timeline_section df page = ((page ++ timeline_elements df)%list, Returned tt).
Proof.
  unfold timeline_section, timeline_elements, bind, st_markdown, st_plotly_chart,
    emit, ret.
  destruct (timeline_df df) as [|r rs]; simpl.
  - reflexivity.
  - now rewrite <- app_assoc.
Qed.

Lemma closing_note_run (page : list element) :
  closing_note page = ((page ++ closing_elements)%list, Returned tt).
Proof.
  unfold closing_note, closing_elements, bind, st_markdown, emit. simpl.
  now rewrite <- app_assoc.
Qed.

Lemma no_warning_after_heatmap (df : list record) :
  existsb is_warning (timeline_elements df ++ closing_elements) = false.
Proof.
  unfold timeline_elements. destruct (timeline_df df); reflexivity.
Qed.

Lemma fill_not_NaN (v : Q) (c : float64) : fill v c <> NaN.
Proof. destruct c; discriminate. Qed.

Lemma pivot_returned (heat_df : list heat_row) (heat_pivot : frame) :
  pivot heat_df = Returned heat_pivot ->
  values heat_pivot =
  map (fun d => map (fun p => cell_or_NaN (lookup_cell heat_df d p))
                    (columns heat_pivot))
      (index heat_pivot).
Proof.
  unfold pivot. destruct (duplicated (map heat_key heat_df)); [discriminate|].
  intros E. inversion E. reflexivity.
Qed.

(** The handler covers the whole body: whatever the body raises, the
    script goes on after the [try] statement. *)
Lemma try_except_returns {A} (body : script A) (handler : string -> script A)
      (page : list element) :
  (forall e page', exists page'' a, handler e page' = (page'', Returned a)) ->
  exists page'' a, try_except body handler page = (page'', Returned a).
Proof.
  intros Hh. unfold try_except.
  destruct (body page) as [page' [a|e]]; [now exists page', a|apply Hh].
Qed.

Lemma duplicated_NoDup {K} `{Ord K} `{!OrdLaws K} (l : list K) : NoDup l -> duplicated l = false.
Proof.
  induction 1 as [|k l Hnin Hnd IH]; simpl; [reflexivity|].
  rewrite IH, orb_false_r.
  destruct (existsb (key_eqb k) l) eqn:E; [|reflexivity].
  apply existsb_exists in E as (x & Hx & Hk).
  apply key_eqb_eq in Hk. subst x. contradiction.
Qed.

(** On the frame the dashboard builds, the pivot never raises: after the
    group-by, no (department, project) pair occurs twice. *)
Lemma pivot_heat_df_returns (proj_summary : list classified) :
  exists heat_pivot, pivot (heat_df proj_summary) = Returned heat_pivot.
Proof.
  unfold pivot.
  assert (duplicated (map heat_key (heat_df proj_summary)) = false) as ->.
  { apply duplicated_NoDup. unfold heat_df. rewrite map_map.
    rewrite (map_ext (fun g => heat_key (heat_row_of g)) fst)
      by (intros [[d p] v]; reflexivity).
    rewrite agg_keys. apply groupby_NoDup. }
  eexists. reflexivity.
Qed.

(** ** Worked examples *)

(** The groups come out sorted by key, whatever the order of the rows. *)
Example aggregate_sorted_by_key :
  map ps_Project_Name
      (aggregate_project_progress
         [bridge_c_done; bridge_a_80; amrut_late; bridge_a_90_no_flag]) =
  ["Amrut 2.0"; "Bridge A"; "Bridge C"].
Proof. reflexivity. Qed.

(** Two rows of "Bridge A" at 80 and 90: one record at 85, "On Track". *)
Example bridge_a_on_track :
  map (fun c => (ps_Project_Name (cs_row c), Derived_Status c))
      (with_derived_status (fun _ => midnight 19500)
         (aggregate_project_progress
            (df_week [bridge_a_80; amrut_late; bridge_a_90_no_flag] 3))) =
  [("Bridge A", "On Track")].
Proof. reflexivity. Qed.

Example status_cards :
  let proj_summary :=
    with_derived_status (fun _ => midnight 19500)
      (aggregate_project_progress
         [bridge_c_done; bridge_a_80; amrut_late; bridge_a_90_no_flag;
          bridge_b_no_value]) in
  (status_count proj_summary "Completed", status_count proj_summary "On Track",
   status_count proj_summary "Delayed", status_count proj_summary "Paused",
   status_count proj_summary "Out of Scope") = (1, 1, 1, 1, 0)%nat.
Proof. reflexivity. Qed.

Example timeline_points :
  map (fun p => (tp_Week_Number p, tp_Project_Name p))
      (agg_tl (timeline_df [amrut_late; bridge_a_80; bridge_c_done; amrut_late])) =
  [(3%Z, "Bridge C"); (4%Z, "Amrut 2.0")].
Proof. reflexivity. Qed.

(** The boundary scenarios at 84.99 %, with the clock at noon of day
    20000: due the day before and due the same day are "Delayed", due the
    day after is "Paused". *)
Example scenarios_84_99 :
  map (fun d => derive_status_flag noon_day_20000
                  (mk_summary "Bridge A" "Critical" "PWD" "Roads" "A. Verma"
                              (midnight d) (Fin 84.99) None))
      [19999; 20000; 20001]%Z =
  ["Delayed"; "Delayed"; "Paused"].
Proof. reflexivity. Qed.

(** Both orders of filtering and aggregating, on a frame with rows of
    other categories and a row without project name. *)
Example timeline_both_orders :
  let df := [amrut_late; bridge_a_80; bridge_c_done; row_no_sub_department;
             mk_record None (Some "Super Critical") (Some "PWD") (Some "Roads")
                       (Some "A. Verma") (Some (midnight 19000)) (Some 3%Z)
                       (Fin 10) None;
             mk_record (Some "Amrut 2.0") (Some "Super Critical") (Some "Urban")
                       (Some "Sewer") (Some "R. Singh") (Some (midnight 19500))
                       (Some 4%Z) NaN None] in
  agg_tl (timeline_df df) =
    [mk_trend_point 3 "Bridge C" (Fin ((0 + 100) / 1));
     mk_trend_point 4 "Amrut 2.0" (Fin ((0 + 40) / 1))] /\
  aggregate_then_filter df =
    [mk_trend_point 3 "Bridge C" (Fin ((0 + 100) / 1));
     mk_trend_point 4 "Amrut 2.0" (Fin ((0 + 40) / 1))].
Proof. split; reflexivity. Qed.

(** ** Further properties of the status rule and of the cards *)

(** X1: the four answers of the rule and their exact conditions. The rule
    answers "Delayed" exactly for a completion below 85 with the expected
    completion strictly before the clock reading, and "Paused" exactly for
    a missing completion or a completion below 85 not yet overdue;
    "Completed" exactly from 99.9 on and "On Track" exactly from 85 to
    below 99.9. *)
Theorem X1_status_decision_table (now : Timestamp) (row : summary) :
  (derive_status_flag now row = "Completed" <->
   exists q, ps_Completion_pct row = Fin q /\ (99.9 <= q)%Q) /\
  (derive_status_flag now row = "On Track" <->
   exists q, ps_Completion_pct row = Fin q /\ (85 <= q)%Q /\ (q < 99.9)%Q) /\
  (derive_status_flag now row = "Delayed" <->
   exists q, ps_Completion_pct row = Fin q /\ (q < 85)%Q /\
             (ps_Expected_Completion row < now)%Z) /\
  (derive_status_flag now row = "Paused" <->
   ps_Completion_pct row = NaN \/
   exists q, ps_Completion_pct row = Fin q /\ (q < 85)%Q /\
             (now <= ps_Expected_Completion row)%Z).
Proof.
  unfold derive_status_flag.
  destruct (ps_Completion_pct row) as [|q] eqn:Ec.
  - simpl. repeat split; try discriminate;
      try (intros (q & Hq & _); discriminate).
    intros _. now left.
  - destruct (f_ge (Fin q) (Fin 99.9)) eqn:E1.
    { apply f_ge_Fin in E1.
      repeat split; try discriminate; try (intros _; now exists q).
      - intros (q' & Hq & _ & Hlt). inversion Hq; subst q'.
        exfalso. exact (Qlt_not_le _ _ Hlt E1).
      - intros (q' & Hq & Hlt & _). inversion Hq; subst q'.
        exfalso. apply (Qlt_not_le _ _ Hlt).
        eapply Qle_trans; [|exact E1]. discriminate.
      - intros [Hn|(q' & Hq & Hlt & _)]; [discriminate|].
        inversion Hq; subst q'.
        exfalso. apply (Qlt_not_le _ _ Hlt).
        eapply Qle_trans; [|exact E1]. discriminate. }
    apply f_ge_Fin_false in E1.
    destruct (f_ge (Fin q) (Fin 85)) eqn:E2.
    { apply f_ge_Fin in E2.
      repeat split; try discriminate; try (intros _; now exists q).
      - intros (q' & Hq & Hge). inversion Hq; subst q'.
        exfalso. exact (Qlt_not_le _ _ E1 Hge).
      - intros (q' & Hq & Hlt & _). inversion Hq; subst q'.
        exfalso. exact (Qlt_not_le _ _ Hlt E2).
      - intros [Hn|(q' & Hq & Hlt & _)]; [discriminate|].
        inversion Hq; subst q'.
        exfalso. exact (Qlt_not_le _ _ Hlt E2). }
    apply f_ge_Fin_false in E2.
    assert (f_lt (Fin q) (Fin 85) = true) as -> by now apply f_lt_Fin.
    simpl andb.
    destruct (ps_Expected_Completion row <? now)%Z eqn:E3.
    + apply Z.ltb_lt in E3.
      repeat split; try discriminate; try (intros _; now exists q).
      * intros (q' & Hq & Hge). inversion Hq; subst q'.
        exfalso. exact (Qlt_not_le _ _ E1 Hge).
      * intros (q' & Hq & Hge & _). inversion Hq; subst q'.
        exfalso. exact (Qlt_not_le _ _ E2 Hge).
      * intros [Hn|(q' & Hq & _ & Hle)]; [discriminate|lia].
    + apply Z.ltb_ge in E3.
      repeat split; try discriminate.
      * intros (q' & Hq & Hge). inversion Hq; subst q'.
        exfalso. exact (Qlt_not_le _ _ E1 Hge).
      * intros (q' & Hq & Hge & _). inversion Hq; subst q'.
        exfalso. exact (Qlt_not_le _ _ E2 Hge).
      * intros (q' & _ & _ & Hlt). lia.
      * intros _. right. now exists q.
Qed.

Lemma derive_status_flag_at_least_85 (now now' : Timestamp) (row : summary) :
  f_ge (ps_Completion_pct row) (Fin 85) = true ->
  derive_status_flag now row = derive_status_flag now' row.
Proof.
  intros Hge. unfold derive_status_flag. rewrite Hge.
  destruct (f_ge (ps_Completion_pct row) (Fin 99.9)); reflexivity.
Qed.

Lemma derive_status_flag_NaN (now : Timestamp) (row : summary) :
  ps_Completion_pct row = NaN -> derive_status_flag now row = "Paused".
Proof. intros E. unfold derive_status_flag. now rewrite E. Qed.

(** X2: as the clock advances, the status of a record changes at most
    once, from "Paused" to "Delayed": a "Delayed" record stays "Delayed",
    and any other change of status is excluded. *)
Theorem X2_status_over_time (now now' : Timestamp) (row : summary) :
  (now <= now')%Z ->
  (derive_status_flag now row = "Delayed" ->
   derive_status_flag now' row = "Delayed") /\
  (derive_status_flag now row <> derive_status_flag now' row ->
   derive_status_flag now row = "Paused" /\
   derive_status_flag now' row = "Delayed").
Proof.
  intros Hle.
  destruct (f_ge (ps_Completion_pct row) (Fin 85)) eqn:E85.
  { rewrite (derive_status_flag_at_least_85 now now' row E85).
    split; [auto|intros Hne; now destruct Hne]. }
  destruct (ps_Completion_pct row) as [|q] eqn:Ec.
  { assert (ps_Completion_pct row = NaN) as HN by exact Ec.
    rewrite !(derive_status_flag_NaN _ row HN).
    split; [discriminate|intros Hne; now destruct Hne]. }
  assert (f_lt (ps_Completion_pct row) (Fin 85) = true) as Hlt.
  { rewrite Ec. apply f_lt_Fin. now apply f_ge_Fin_false. }
  rewrite !(derive_status_flag_below_85 _ row Hlt).
  destruct (ps_Expected_Completion row <? now)%Z eqn:E1;
    destruct (ps_Expected_Completion row <? now')%Z eqn:E2;
    try (apply Z.ltb_lt in E1); try (apply Z.ltb_ge in E1);
    try (apply Z.ltb_lt in E2); try (apply Z.ltb_ge in E2);
    try lia; split; auto; try discriminate;
    intros Hne; now destruct Hne.
Qed.

Lemma X2_status_over_time_witness :
  derive_status_flag (midnight 20000) row_due_day_20000 = "Paused" /\
  derive_status_flag noon_day_20000 row_due_day_20000 = "Delayed".
Proof.
  apply (X2_status_over_time (midnight 20000) noon_day_20000 row_due_day_20000).
  - vm_compute. discriminate.
  - vm_compute. discriminate.
Defined.

Lemma status_count_cons (c : classified) (df : list classified) (status : string) :
  status_count (c :: df) status =
  ((if String.eqb (Derived_Status c) status then 1 else 0) + status_count df status)%nat.
Proof.
  unfold status_count. simpl.
  destruct (String.eqb (Derived_Status c) status); reflexivity.
Qed.

Lemma apply_from_length (clock : nat -> Timestamp) (rows : list summary) :
  forall i, List.length (apply_from clock i rows) = List.length rows.
Proof.
  induction rows as [|row rows IH]; intros i; simpl; [reflexivity|].
  now rewrite IH.
Qed.

Lemma apply_from_rows (clock : nat -> Timestamp) (rows : list summary) :
  forall i, map cs_row (apply_from clock i rows) = rows.
Proof.
  induction rows as [|row rows IH]; intros i; simpl; [reflexivity|].
  now rewrite IH.
Qed.

(** X3: the four status cards add up to the card "Total Projects": with
    the derived status set by the rule, the counts of "On Track",
    "Delayed", "Completed" and "Paused" sum to the number of rows of
    [proj_summary], whatever the clock readings. *)
Theorem X3_cards_add_up (clock : nat -> Timestamp) (rows : list summary) :
  let proj_summary := with_derived_status clock rows in
  (status_count proj_summary "On Track" + status_count proj_summary "Delayed"
   + status_count proj_summary "Completed" + status_count proj_summary "Paused")%nat
  = total_projects proj_summary.
Proof.
  unfold with_derived_status, total_projects. generalize 0%nat as i.
  induction rows as [|row rows IH]; intros i; [reflexivity|].
  simpl apply_from. rewrite !status_count_cons. simpl List.length.
  rewrite <- (IH (S i)). simpl Derived_Status.
  destruct (derive_status_flag_labels (clock i) row) as [E|[E|[E|E]]];
    rewrite E; simpl; lia.
Qed.

(** X4: every status the rule can answer has a colour in the colour map,
    and two different answers have different colours. *)
Theorem X4_every_status_has_a_colour :
  (forall now row, exists c, color_of (derive_status_flag now row) = Some c) /\
  (forall now row now' row',
      color_of (derive_status_flag now row) = color_of (derive_status_flag now' row') ->
      derive_status_flag now row = derive_status_flag now' row').
Proof.
  split.
  - intros now row.
    destruct (derive_status_flag_labels now row) as [E|[E|[E|E]]];
      rewrite E; eexists; reflexivity.
  - intros now row now' row'.
    destruct (derive_status_flag_labels now row) as [E|[E|[E|E]]];
      destruct (derive_status_flag_labels now' row') as [E'|[E'|[E'|E']]];
      rewrite E, E'; vm_compute; intros H; try reflexivity; discriminate H.
Qed.

(** ** Further properties of [aggregate_project_progress] *)

Lemma unique_snoc {K} `{Ord K} (l : list K) (k : K) :
  unique (l ++ [k]) = unique_step (unique l) k.
Proof. unfold unique. now rewrite fold_left_app. Qed.

Lemma In_unique {K} `{Ord K} `{!OrdLaws K} (x : K) (l : list K) :
  In x (unique l) <-> In x l.
Proof.
  induction l as [|k l IH] using rev_ind; [reflexivity|].
  rewrite unique_snoc, in_app_iff. unfold unique_step.
  destruct (existsb (key_eqb k) (unique l)) eqn:E.
  - rewrite IH. split; [now left|].
    intros [Hin|[<-|[]]]; [assumption|].
    apply existsb_exists in E as (y & Hy & Hk).
    apply key_eqb_eq in Hk. subst y. now apply IH.
  - rewrite in_app_iff, IH. reflexivity.
Qed.

Lemma NoDup_unique {K} `{Ord K} `{!OrdLaws K} (l : list K) : NoDup (unique l).
Proof.
  induction l as [|k l IH] using rev_ind; [constructor|].
  rewrite unique_snoc. unfold unique_step.
  destruct (existsb (key_eqb k) (unique l)) eqn:E; [assumption|].
  apply NoDup_app; [assumption|constructor; [intros []|constructor]|].
  intros x Hx [<-|[]].
  assert (existsb (key_eqb k) (unique l) = true) as Ht.
  { apply existsb_exists. exists k. split; [assumption|apply key_eqb_refl]. }
  congruence.
Qed.

Lemma In_complete_keys (k : identity) (rows : list record) :
  In k (complete_keys rows) <-> exists r, In r rows /\ identity_of r = Some k.
Proof.
  unfold complete_keys. rewrite in_flat_map. split.
  - intros (r & Hr & Hk). exists r. split; [assumption|].
    destruct (identity_of r); [|contradiction].
    destruct Hk as [->|[]]. reflexivity.
  - intros (r & Hr & Hk). exists r. split; [assumption|].
    rewrite Hk. now left.
Qed.

Lemma In_groupby_keys {K R} `{Ord K} `{!OrdLaws K} (by_key : R -> option K)
      (k : K) (rows : list R) :
  In k (map fst (groupby by_key rows)) <-> exists r, In r rows /\ by_key r = Some k.
Proof.
  rewrite in_map_iff. split.
  - intros ([k' rs] & Hk & Hin). simpl in Hk. subst k'.
    now apply groupby_In in Hin as [_ Hex].
  - intros Hex. exists (k, filter (has_key by_key k) rows).
    split; [reflexivity|]. apply groupby_In. now split.
Qed.

(** X5: the card "Total Projects" shows the number of distinct identity
    keys among the rows of the week whose six key cells are all present. *)
Theorem X5_total_is_distinct_keys (clock : nat -> Timestamp) (rows : list record) :
  total_projects (with_derived_status clock (aggregate_project_progress rows)) =
  List.length (unique (complete_keys rows)).
Proof.
  unfold total_projects, with_derived_status.
  rewrite apply_from_length.
  rewrite <- (length_map ps_identity), aggregate_keys.
  apply Permutation_length, NoDup_Permutation.
  - apply groupby_NoDup.
  - apply NoDup_unique.
  - intros k. now rewrite In_groupby_keys, In_unique, In_complete_keys.
Qed.

(** X6: the rows of [proj_summary] come in strictly ascending order of
    their identity key (project name first), whatever the order of the
    spreadsheet rows; no key occurs twice. *)
Theorem X6_summary_sorted_by_key (rows : list record) :
  StronglySorted identity_lt (aggregate_project_progress rows).
Proof.
  unfold aggregate_project_progress.
  apply StronglySorted_map_on
    with (RA := key_lt) (P := fun _ => True).
  - intros x y _ _ [Hle Hne]. unfold identity_lt.
    destruct x as [kx vx], y as [ky vy].
    rewrite !ps_identity_reset_index. now split.
  - apply Forall_forall. intros; exact I.
  - apply agg_groupby_strict.
Qed.

(** The keys of the groups depend on the rows of the frame, not on their
    order. *)
Lemma groupby_keys_perm {K R} `{Ord K} `{!OrdLaws K} (by_key : R -> option K)
      (rows rows' : list R) :
  Permutation rows rows' ->
  map fst (groupby by_key rows) = map fst (groupby by_key rows').
Proof.
  intros Hp.
  rewrite <- (agg_keys (fun _ => tt) (groupby by_key rows)).
  rewrite <- (agg_keys (fun _ => tt) (groupby by_key rows')).
  f_equal. apply strict_sorted_ext; try apply agg_groupby_strict.
  intros [k []]. rewrite !agg_In. split; intros [_ (r & Hr & Hk)];
    (split; [reflexivity|]); exists r; (split; [|assumption]).
  - eapply Permutation_in; eassumption.
  - eapply Permutation_in; [symmetry|]; eassumption.
Qed.

(** X7: the order of the spreadsheet rows has no effect on which records
    [proj_summary] holds nor on their order: two frames with the same
    rows in different orders give the same identity keys, row by row.
    (The mean and the raw status flag of a record can depend on the
    order of its rows.) *)
Theorem X7_order_of_rows_irrelevant (rows rows' : list record) :
  Permutation rows rows' ->
  map ps_identity (aggregate_project_progress rows) =
  map ps_identity (aggregate_project_progress rows').
Proof.
  intros Hp. rewrite !aggregate_keys.
  now apply groupby_keys_perm.
Qed.

Lemma X7_order_of_rows_irrelevant_witness :
  map ps_identity
      (aggregate_project_progress [bridge_a_80; amrut_late; bridge_a_90_no_flag]) =
  map ps_identity
      (aggregate_project_progress [bridge_a_90_no_flag; bridge_a_80; amrut_late]).
Proof.
  apply (X7_order_of_rows_irrelevant
           [bridge_a_80; amrut_late; bridge_a_90_no_flag]
           [bridge_a_90_no_flag; bridge_a_80; amrut_late]).
  apply Permutation_sym.
  apply (Permutation_cons_app [bridge_a_80; amrut_late] [] bridge_a_90_no_flag).
  simpl. reflexivity.
Defined.















(** ** Properties of the week selector *)

Lemma insert_sorted_perm {K} `{Ord K} (k : K) (l : list K) :
  Permutation (insert_sorted k l) (k :: l).
Proof.
  induction l as [|h t IH]; simpl; [reflexivity|].
  destruct (leb k h); [reflexivity|].
  rewrite IH. apply perm_swap.
Qed.

Lemma sorted_perm {K} `{Ord K} (l : list K) : Permutation (sorted l) l.
Proof.
  induction l as [|k l IH]; simpl; [reflexivity|].
  rewrite insert_sorted_perm. now constructor.
Qed.

Lemma insert_sorted_sorted {K} `{Ord K} `{!OrdLaws K} (k : K) (l : list K) :
  StronglySorted (fun a b => leb a b = true) l ->
  StronglySorted (fun a b => leb a b = true) (insert_sorted k l).
Proof.
  induction l as [|h t IH]; simpl; intros Hs.
  - constructor; constructor.
  - inversion Hs as [|? ? Hst Hall]; subst.
    destruct (leb k h) eqn:E.
    + constructor; [assumption|]. constructor; [exact E|].
      eapply Forall_impl; [|exact Hall].
      intros x Hx. eapply leb_trans; eassumption.
    + constructor; [auto|].
      eapply Permutation_Forall; [symmetry; apply insert_sorted_perm|].
      constructor; [|assumption].
      destruct (leb_total k h); congruence.
Qed.

Lemma sorted_sorted {K} `{Ord K} `{!OrdLaws K} (l : list K) :
  StronglySorted (fun a b => leb a b = true) (sorted l).
Proof.
  induction l as [|k l IH]; simpl; [constructor|now apply insert_sorted_sorted].
Qed.

Lemma In_week_options (w : Z) (weeks : list Z) :
  In w (week_options weeks) <-> In w weeks.
Proof.
  unfold week_options. split; intros Hin.
  - apply In_unique. eapply Permutation_in; [apply sorted_perm|exact Hin].
  - eapply Permutation_in; [symmetry; apply sorted_perm|]. now apply In_unique.
Qed.

Lemma week_options_ascending (weeks : list Z) :
  StronglySorted Z.lt (week_options weeks).
Proof.
  unfold week_options.
  assert (NoDup (sorted (unique weeks))) as Hnd.
  { eapply Permutation_NoDup; [symmetry; apply sorted_perm|apply NoDup_unique]. }
  pose proof (sorted_sorted (unique weeks)) as Hs.
  induction Hs as [|x l Hs IH Hall]; [constructor|].
  inversion Hnd as [|? ? Hnin Hnd']; subst.
  constructor; [auto|].
  rewrite Forall_forall in *. intros y Hy.
  specialize (Hall y Hy). simpl in Hall. apply Z.leb_le in Hall.
  assert (x <> y) by (intros ->; contradiction). lia.
Qed.

(** X10: the weeks offered in the side bar are the weeks that occur in
    the column, each once, in strictly ascending order. *)
Theorem X10_week_options_ascending (weeks : list Z) :
  StronglySorted Z.lt (week_options weeks) /\
  (forall w, In w (week_options weeks) <-> In w weeks).
Proof.
  split; [apply week_options_ascending|intros w; apply In_week_options].
Qed.

Lemma StronglySorted_last (l : list Z) (m : Z) :
  StronglySorted Z.lt (l ++ [m]) -> forall x, In x l -> (x < m)%Z.
Proof.
  induction l as [|h t IH]; intros Hs x Hx; [contradiction|].
  simpl in Hs. inversion Hs as [|? ? Hst Hall]; subst.
  destruct Hx as [->|Hx]; [|now apply IH].
  rewrite Forall_forall in Hall. apply Hall.
  apply in_or_app. right. now left.
Qed.

Lemma df_week_In (df : list record) (w : Z) (r : record) :
  In r (df_week df w) <-> In r df /\ Week_Number r = Some w.
Proof.
  unfold df_week. rewrite filter_In.
  destruct (Week_Number r) as [w'|].
  - rewrite Z.eqb_eq. split; intros [Hr E]; (split; [assumption|congruence]).
  - split; intros [_ E]; discriminate.
Qed.

Lemma In_week_column (df : list record) (weeks : list Z) (w : Z) :
  map Week_Number df = map Some weeks ->
  (In w weeks <-> exists r, In r df /\ Week_Number r = Some w).
Proof.
  intros Hcol. split.
  - intros Hw. apply (in_map Some) in Hw. rewrite <- Hcol in Hw.
    apply in_map_iff in Hw as (r & Hr & Hin). now exists r.
  - intros (r & Hr & Hw). apply (in_map Week_Number) in Hr.
    rewrite Hcol, Hw in Hr. apply in_map_iff in Hr as (w' & E & Hin).
    now inversion E; subst.
Qed.

(** X11: on a frame that is not empty, the week selected by default is the
    latest week of the frame, and the frame has rows for it. *)
Theorem X11_default_week_is_latest (df : list record) (weeks : list Z) :
  map Week_Number df = map Some weeks ->
  df <> [] ->
  exists m, default_week weeks = Some m /\
            (forall w, In w weeks -> (w <= m)%Z) /\
            df_week df m <> [].
Proof.
  intros Hcol Hne.
  assert (week_options weeks <> []) as Hopt.
  { destruct df as [|r df]; [now destruct Hne|].
    destruct weeks as [|w weeks]; [discriminate|].
    intros E. assert (In w (week_options (w :: weeks))) as Hin
        by (apply In_week_options; now left).
    now rewrite E in Hin. }
  destruct (exists_last Hopt) as (l & m & El).
  exists m. split; [|split].
  - unfold default_week. rewrite El, length_app. simpl.
    rewrite Nat.add_sub, nth_error_app2 by lia.
    now rewrite Nat.sub_diag.
  - intros w Hw. apply In_week_options in Hw. rewrite El in Hw.
    apply in_app_or in Hw as [Hw|[->|[]]]; [|lia].
    pose proof (week_options_ascending weeks) as Hs. rewrite El in Hs.
    apply Z.lt_le_incl. now apply (StronglySorted_last l m Hs).
  - assert (In m weeks) as Hm.
    { apply In_week_options. rewrite El. apply in_or_app. right. now left. }
    apply (In_week_column df weeks m Hcol) in Hm as (r & Hr & Hw).
    intros E. assert (In r (df_week df m)) as Hin by now apply df_week_In.
    now rewrite E in Hin.
Qed.

Lemma X11_default_week_is_latest_witness :
  exists m, default_week [3; 4; 3]%Z = Some m /\
            (forall w, In w [3; 4; 3]%Z -> (w <= m)%Z) /\
            df_week [bridge_a_80; amrut_late; bridge_a_90_no_flag] m <> [].
Proof.
  apply (X11_default_week_is_latest
           [bridge_a_80; amrut_late; bridge_a_90_no_flag] [3; 4; 3]%Z).
  - reflexivity.
  - discriminate.
Defined.

(** X12: a week has rows in the frame exactly when it is offered in the
    side bar: filtering by an offered week gives at least one row, and
    filtering by any other week gives the empty frame. *)
Theorem X12_offered_weeks_have_rows (df : list record) (weeks : list Z) (w : Z) :
  map Week_Number df = map Some weeks ->
  (In w (week_options weeks) <-> df_week df w <> []).
Proof.
  intros Hcol. rewrite In_week_options, (In_week_column df weeks w Hcol). split.
  - intros (r & Hr & Hw) E.
    assert (In r (df_week df w)) as Hin by now apply df_week_In.
    now rewrite E in Hin.
  - intros Hne. destruct (df_week df w) as [|r rs] eqn:E; [now destruct Hne|].
    assert (In r (df_week df w)) as Hin by (rewrite E; now left).
    apply df_week_In in Hin. now exists r.
Qed.

Lemma X12_offered_weeks_have_rows_witness :
  In 4%Z (week_options [3; 4; 3]%Z) <->
  df_week [bridge_a_80; amrut_late; bridge_a_90_no_flag] 4 <> [].
Proof.
  apply (X12_offered_weeks_have_rows
           [bridge_a_80; amrut_late; bridge_a_90_no_flag] [3; 4; 3]%Z 4%Z).
  reflexivity.
Defined.

(** ** Properties of the category grid *)

Lemma length_filter_cons {A} (p : A -> bool) (x : A) (l : list A) :
  List.length (filter p (x :: l)) =
  ((if p x then 1 else 0) + List.length (filter p l))%nat.
Proof. simpl. destruct (p x); reflexivity. Qed.

(** X13: no record is lost or shown twice by the grid: the sizes of the
    four columns and the number of records whose category is none of the
    four add up to the number of records of [proj_summary]. *)
Theorem X13_grid_accounts_for_all (proj_summary : list classified) :
  (List.length (cat_df proj_summary "Super Critical")
   + List.length (cat_df proj_summary "Critical")
   + List.length (cat_df proj_summary "Urgent")
   + List.length (cat_df proj_summary "Moderate")
   + List.length (filter (fun r => negb (in_cat_order r)) proj_summary))%nat
  = List.length proj_summary.
Proof.
  unfold cat_df.
  induction proj_summary as [|r rs IH]; [reflexivity|].
  rewrite !length_filter_cons. simpl List.length at 6. rewrite <- IH.
  unfold in_cat_order, cat_order. cbn [existsb].
  destruct (String.eqb_spec (ps_Project_category (cs_row r)) "Super Critical") as [E|_];
    [rewrite E; cbn; lia|].
  destruct (String.eqb_spec (ps_Project_category (cs_row r)) "Critical") as [E|_];
    [rewrite E; cbn; lia|].
  destruct (String.eqb_spec (ps_Project_category (cs_row r)) "Urgent") as [E|_];
    [rewrite E; cbn; lia|].
  destruct (String.eqb_spec (ps_Project_category (cs_row r)) "Moderate") as [E|_];
    [cbn; lia|].
  cbn. lia.
Qed.

Lemma with_derived_status_rows (clock : nat -> Timestamp) (rows : list summary) :
  map cs_row (with_derived_status clock rows) = rows.
Proof. apply apply_from_rows. Qed.

Lemma identity_of_category (r : record) (k : identity) (v : float64 * option string) :
  identity_of r = Some k ->
  Project_category r = Some (ps_Project_category (reset_index (k, v))).
Proof.
  unfold identity_of.
  destruct (Project_Name r), (Project_category r), (Department r),
    (Sub_department r), (Department_Head r), (Expected_Completion r);
    try discriminate.
  intros E. inversion E; subst. destruct v. reflexivity.
Qed.

(** X14: a column of the grid shows a bar chart exactly when the frame of
    the week has a row of that category whose six key cells are all
    present; otherwise it shows the notice "No projects in this
    category.". *)
Theorem X14_grid_column_content
  (clock : nat -> Timestamp) (rows : list record) (cat : string) :
  let proj_summary := with_derived_status clock (aggregate_project_progress rows) in
  ((exists r k, In r rows /\ identity_of r = Some k /\ Project_category r = Some cat) ->
   category_column proj_summary cat = bar (cat_df proj_summary cat) /\
   cat_df proj_summary cat <> []) /\
  (~ (exists r k, In r rows /\ identity_of r = Some k /\ Project_category r = Some cat) ->
   category_column proj_summary cat = info "No projects in this category.").
Proof.
  intros proj_summary.
  assert ((exists c, In c (cat_df proj_summary cat)) <->
          (exists r k, In r rows /\ identity_of r = Some k /\
                       Project_category r = Some cat)) as Hiff.
  { split.
    - intros (c & Hc). unfold cat_df in Hc. apply filter_In in Hc as [Hc Hcat].
      apply String.eqb_eq in Hcat.
      apply (in_map cs_row) in Hc. unfold proj_summary in Hc.
      rewrite with_derived_status_rows in Hc.
      apply aggregate_In in Hc as (k & (r & Hr & Hk) & Hs).
      exists r, k. repeat split; try assumption.
      rewrite (identity_of_category r k (mean_and_last (group_of k rows)) Hk), <- Hs.
      now rewrite Hcat.
    - intros (r & k & Hr & Hk & Hcat).
      assert (In (reset_index (k, mean_and_last (group_of k rows)))
                 (map cs_row proj_summary)) as Hin.
      { unfold proj_summary. rewrite with_derived_status_rows.
        apply aggregate_In. exists k. split; [now exists r|reflexivity]. }
      apply in_map_iff in Hin as (c & Hc & Hin). exists c.
      unfold cat_df. apply filter_In. split; [assumption|].
      apply String.eqb_eq. rewrite Hc.
      rewrite (identity_of_category r k (mean_and_last (group_of k rows)) Hk) in Hcat.
      now inversion Hcat. }
  unfold category_column. split.
  - intros Hex. apply Hiff in Hex as (c & Hc).
    destruct (cat_df proj_summary cat) as [|c0 cs]; [contradiction|].
    split; [reflexivity|discriminate].
  - intros Hnex. destruct (cat_df proj_summary cat) as [|c0 cs] eqn:E; [reflexivity|].
    destruct Hnex. apply Hiff. exists c0. now left.
Qed.

Lemma X14_grid_column_content_witness :
  category_column
    (with_derived_status (fun _ => midnight 20000)
       (aggregate_project_progress [bridge_a_80; amrut_late])) "Urgent"
  = info "No projects in this category.".
Proof.
  apply (proj2 (X14_grid_column_content (fun _ => midnight 20000)
                                        [bridge_a_80; amrut_late] "Urgent")).
  intros (r & k & [<-|[<-|[]]] & _ & Hcat); discriminate Hcat.
Defined.

(** ** Further properties of the heatmap *)

Lemma heat_key_heat_row_of (g : string * string * float64) :
  heat_key (heat_row_of g) = fst g.
Proof. destruct g as [[d p] v]. reflexivity. Qed.

Lemma lookup_cell_rows (l : list (string * string * float64)) (d p : string) :
  lookup_cell (map heat_row_of l) d p =
  option_map snd (find (fun g => key_eqb (d, p) (fst g)) l).
Proof.
  unfold lookup_cell. induction l as [|g l IH]; simpl; [reflexivity|].
  rewrite heat_key_heat_row_of.
  destruct (key_eqb (d, p) (fst g)); [|exact IH].
  destruct g as [[d' p'] v]. reflexivity.
Qed.

(** X15: the number in the cell of a department and a project is the mean
    completion of the records of [proj_summary] of that department and
    project, and 0 when there is no such record or when their mean is
    undefined. *)
Theorem X15_heatmap_cell (proj_summary : list classified) (d p : string) :
  fill 0 (cell_or_NaN (lookup_cell (heat_df proj_summary) d p)) =
  match heat_group proj_summary d p with
  | [] => Fin 0
  | _ :: _ => fill 0 (group_mean (map completion_of (heat_group proj_summary d p)))
  end.
Proof.
  unfold heat_df. rewrite lookup_cell_rows.
  set (f := fun rs : list classified =>
              group_mean (map (fun r => ps_Completion_pct (cs_row r)) rs)).
  destruct (heat_group proj_summary d p) as [|c cs] eqn:Eg.
  - destruct (find _ _) as [g|] eqn:Ef; [|reflexivity].
    apply find_key_In in Ef as [Hin Hk]. destruct g as [k v]. simpl in Hk. subst k.
    apply agg_In in Hin as [_ (r & Hr & Hkey)].
    assert (In r (heat_group proj_summary d p)) as Hin.
    { unfold heat_group. apply filter_In. split; [assumption|].
      now apply has_key_iff. }
    now rewrite Eg in Hin.
  - assert (In c (heat_group proj_summary d p)) as Hc by (rewrite Eg; now left).
    unfold heat_group in Hc. apply filter_In in Hc as [Hc Hk].
    apply has_key_iff in Hk.
    assert (In (d, p, f (filter (has_key department_project (d, p)) proj_summary))
               (agg f (groupby department_project proj_summary))) as Hin.
    { apply agg_In. split; [reflexivity|now exists c]. }
    assert (NoDup (map fst (agg f (groupby department_project proj_summary)))) as Hnd
        by (rewrite agg_keys; apply groupby_NoDup).
    rewrite (NoDup_keys_find (d, p) _ _ Hnd Hin).
    simpl. unfold f, heat_group in *. now rewrite Eg.
Qed.

Lemma In_insert_unique {K} `{Ord K} `{!OrdLaws K} (x k : K) (l : list K) :
  In x (insert_unique k l) <-> x = k \/ In x l.
Proof.
  induction l as [|h t IH]; simpl.
  - intuition.
  - destruct (key_eqb k h) eqn:E.
    + apply key_eqb_eq in E. subst h. simpl. intuition.
    + destruct (leb k h); simpl; [intuition|].
      rewrite IH. intuition.
Qed.

Lemma In_sorted_unique {K} `{Ord K} `{!OrdLaws K} (x : K) (l : list K) :
  In x (sorted_unique l) <-> In x l.
Proof.
  unfold sorted_unique. induction l as [|k l IH]; simpl; [reflexivity|].
  rewrite In_insert_unique, IH. intuition.
Qed.

Lemma insert_unique_strict {K} `{Ord K} `{!OrdLaws K} (k : K) (l : list K) :
  StronglySorted strictly_below l -> StronglySorted strictly_below (insert_unique k l).
Proof.
  induction l as [|h t IH]; simpl; intros Hs.
  - constructor; constructor.
  - inversion Hs as [|? ? Hst Hall]; subst.
    destruct (key_eqb k h) eqn:E; [assumption|].
    apply key_eqb_neq in E.
    destruct (leb k h) eqn:El.
    + constructor; [assumption|]. constructor; [now split|].
      rewrite Forall_forall in *. intros y Hy.
      destruct (Hall y Hy) as [Hhy Hne]. split.
      * eapply leb_trans; eassumption.
      * intros ->. apply E. now apply leb_antisym.
    + constructor; [auto|].
      rewrite Forall_forall in *. intros y Hy.
      apply In_insert_unique in Hy as [->|Hy]; [|auto].
      split; [|congruence].
      destruct (leb_total k h); congruence.
Qed.

Lemma sorted_unique_strict {K} `{Ord K} `{!OrdLaws K} (l : list K) :
  StronglySorted strictly_below (sorted_unique l).
Proof.
  unfold sorted_unique.
  induction l as [|k l IH]; simpl; [constructor|now apply insert_unique_strict].
Qed.

Lemma string_strictly_below (a b : string) :
  strictly_below a b -> String.ltb a b = true.
Proof.
  intros [Hle Hne]. simpl in Hle. unfold String.leb in Hle. unfold String.ltb.
  destruct (String.compare a b) eqn:E; [|reflexivity|discriminate].
  apply String.compare_eq_iff in E. contradiction.
Qed.

Lemma sorted_unique_strings (l : list string) :
  StronglySorted (fun a b => String.ltb a b = true) (sorted_unique l).
Proof.
  pose proof (sorted_unique_strict l) as Hs.
  induction Hs as [|x xs Hs IH Hall]; constructor; [assumption|].
  eapply Forall_impl; [|exact Hall].
  intros y Hy. now apply string_strictly_below.
Qed.

Lemma In_heat_df (proj_summary : list classified) (d p : string) :
  In (d, p) (map heat_key (heat_df proj_summary)) <->
  exists c, In c proj_summary /\
            ps_Department (cs_row c) = d /\ ps_Project_Name (cs_row c) = p.
Proof.
  unfold heat_df. rewrite map_map.
  rewrite (map_ext (fun g => heat_key (heat_row_of g)) fst)
    by apply heat_key_heat_row_of.
  rewrite agg_keys, In_groupby_keys. unfold department_project.
  split; intros (c & Hc & E); exists c.
  - inversion E. auto.
  - destruct E as [-> ->]. auto.
Qed.

(** X16: on the frame the dashboard builds, the pivot returns a
    rectangular matrix with one row per department and one column per
    project of [proj_summary]: the row labels are the departments, each
    once, in strictly ascending order, the column labels are the project
    names, likewise, and every row of cells has one cell per column. *)
Theorem X16_heatmap_labels_and_shape (proj_summary : list classified) :
  exists heat_pivot,
    pivot (heat_df proj_summary) = Returned heat_pivot /\
    StronglySorted (fun a b => String.ltb a b = true) (index heat_pivot) /\
    (forall d, In d (index heat_pivot) <->
               exists c, In c proj_summary /\ ps_Department (cs_row c) = d) /\
    StronglySorted (fun a b => String.ltb a b = true) (columns heat_pivot) /\
    (forall p, In p (columns heat_pivot) <->
               exists c, In c proj_summary /\ ps_Project_Name (cs_row c) = p) /\
    List.length (values heat_pivot) = List.length (index heat_pivot) /\
    Forall (fun cells => List.length cells = List.length (columns heat_pivot))
           (values heat_pivot).
Proof.
  destruct (pivot_heat_df_returns proj_summary) as (hp & Hp).
  exists hp. split; [exact Hp|].
  unfold pivot in Hp.
  destruct (duplicated (map heat_key (heat_df proj_summary))); [discriminate|].
  injection Hp as <-. cbn [index columns values].
  assert (forall d, In d (map hr_Department (heat_df proj_summary)) <->
                    exists c, In c proj_summary /\ ps_Department (cs_row c) = d) as Hd.
  { intros d. rewrite in_map_iff. split.
    - intros (h & <- & Hin). apply (in_map heat_key) in Hin.
      apply In_heat_df in Hin as (c & Hc & E1 & _). now exists c.
    - intros (c & Hc & <-).
      assert (In (ps_Department (cs_row c), ps_Project_Name (cs_row c))
                 (map heat_key (heat_df proj_summary))) as Hin
          by (apply In_heat_df; now exists c).
      apply in_map_iff in Hin as (h & Hk & Hin). exists h.
      split; [now inversion Hk|assumption]. }
  assert (forall p, In p (map hr_Project_Name (heat_df proj_summary)) <->
                    exists c, In c proj_summary /\ ps_Project_Name (cs_row c) = p) as Hpn.
  { intros p. rewrite in_map_iff. split.
    - intros (h & <- & Hin). apply (in_map heat_key) in Hin.
      apply In_heat_df in Hin as (c & Hc & _ & E1). now exists c.
    - intros (c & Hc & <-).
      assert (In (ps_Department (cs_row c), ps_Project_Name (cs_row c))
                 (map heat_key (heat_df proj_summary))) as Hin
          by (apply In_heat_df; now exists c).
      apply in_map_iff in Hin as (h & Hk & Hin). exists h.
      split; [now inversion Hk|assumption]. }
  repeat split.
  - apply sorted_unique_strings.
  - intros Hin. apply Hd. now apply In_sorted_unique.
  - intros Hex. apply In_sorted_unique. now apply Hd.
  - apply sorted_unique_strings.
  - intros Hin. apply Hpn. now apply In_sorted_unique.
  - intros Hex. apply In_sorted_unique. now apply Hpn.
  - now rewrite length_map.
  - apply Forall_forall. intros cells Hc.
    apply in_map_iff in Hc as (d & <- & _). now rewrite length_map.
Qed.

(** ** Further properties of the timeline trend *)

Lemma week_project_key_lt (x y : Z * string * float64) :
  key_lt x y -> week_project_lt (trend_row x) (trend_row y).
Proof.
  destruct x as [[w n] v], y as [[w' n'] v']. unfold key_lt, week_project_lt.
  simpl. unfold pair_leb. simpl. intros [Hle Hne].
  destruct (key_eqb w w') eqn:E.
  - apply key_eqb_eq in E. subst w'. right. split; [reflexivity|].
    apply string_strictly_below. split; [exact Hle|congruence].
  - apply key_eqb_neq in E. apply Z.leb_le in Hle. left. lia.
Qed.

(** X18: the points of the trend come by week, and by project name within
    a week, in strictly ascending order: the weeks never go back, and no
    pair of week and project has two points. *)
Theorem X18_trend_sorted_by_week (timeline_df : list record) :
  StronglySorted week_project_lt (agg_tl timeline_df).
Proof.
  unfold agg_tl.
  apply StronglySorted_map_on with (RA := key_lt) (P := fun _ => True).
  - intros x y _ _. apply week_project_key_lt.
  - apply Forall_forall. intros; exact I.
  - apply agg_groupby_strict.
Qed.

(** X19: the trend has a point for a week and a project exactly when the
    frame has a "Super Critical" row with that week and that project name,
    and the value of the point is the mean completion of all such rows,
    whatever their department, sub-department, head or expected
    completion. *)
Theorem X19_trend_point (df : list record) (w : Z) (n : string) (v : float64) :
  In (mk_trend_point w n v) (agg_tl (timeline_df df)) <->
  trend_group df w n <> [] /\
  v = group_mean (map Completion_pct (trend_group df w n)).
Proof.
  unfold agg_tl, trend_group. rewrite in_map_iff. split.
  - intros ([[w' n'] v'] & E & Hin). inversion E; subst.
    apply agg_In in Hin as [-> (r & Hr & Hk)]. split; [|reflexivity].
    intros E0.
    assert (In r (filter (has_key week_project (w, n)) (timeline_df df))) as Hin.
    { apply filter_In. split; [assumption|now apply has_key_iff]. }
    now rewrite E0 in Hin.
  - intros [Hne ->].
    exists (w, n, mean_completion (filter (has_key week_project (w, n)) (timeline_df df))).
    split; [reflexivity|]. apply agg_In. split; [reflexivity|].
    destruct (filter (has_key week_project (w, n)) (timeline_df df)) as [|r rs] eqn:E;
      [now destruct Hne|].
    assert (In r (filter (has_key week_project (w, n)) (timeline_df df))) as Hin
        by (rewrite E; now left).
    apply filter_In in Hin as [Hr Hk]. apply has_key_iff in Hk. now exists r.
Qed.

(** ** A project reported once *)

(** X20: a project reported by a single row of the week passes through
    unchanged: when exactly one row carries a key, the record of that key
    has the completion and the raw status flag of that row. *)
Theorem X20_single_row_unchanged (rows : list record) (s : summary) (r : record) :
  In s (aggregate_project_progress rows) ->
  group_of (ps_identity s) rows = [r] ->
  f_same (ps_Completion_pct s) (Completion_pct r) /\
  ps_Status_Flag s = Status_Flag r.
Proof.
  intros Hin Hg. rewrite (aggregate_In_group s rows Hin).
  unfold mean_and_last.
  rewrite ps_Completion_pct_reset_index, ps_Status_Flag_reset_index, Hg.
  split.
  - simpl. unfold group_mean. simpl.
    destruct (Completion_pct r) as [|q]; simpl; [exact I|].
    unfold Qdiv. change (/ inject_Z 1)%Q with 1%Q. ring.
  - simpl. unfold group_last. simpl. now destruct (Status_Flag r).
Qed.

Lemma X20_single_row_unchanged_witness :
  f_same (ps_Completion_pct bridge_c_summary) (Completion_pct bridge_c_done) /\
  ps_Status_Flag bridge_c_summary = Status_Flag bridge_c_done.
Proof.
  apply (X20_single_row_unchanged [bridge_c_done; amrut_late] bridge_c_summary
                                  bridge_c_done).
  - vm_compute. right. now left.
  - reflexivity.
Defined.

(** ** The heatmap section and the exceptions of its [try] block *)

Lemma heatmap_section_pivot_raised (heat_df : list heat_row) (e : string)
      (page : list element) :
  pivot heat_df = Raised e ->
  heatmap_section heat_df page =
    (page ++ [heatmap_heading;
              warning ("Unable to render heatmap for this week: " ++ e)%string],
     Returned tt).
Proof.
  intros Hp.
  unfold heatmap_section, try_except, bind, lift, st_markdown, st_warning, emit.
  rewrite Hp. simpl. now rewrite <- app_assoc.
Qed.

Lemma heatmap_section_chart_raised (heat_df : list heat_row) (heat_pivot : frame)
      (e : string) (page : list element) :
  pivot heat_df = Returned heat_pivot ->
  create_annotated_heatmap (fillna 0 heat_pivot) = Raised e ->
  heatmap_section heat_df page =
    (page ++ [heatmap_heading;
              warning ("Unable to render heatmap for this week: " ++ e)%string],
     Returned tt).
Proof.
  intros Hp Hc.
  unfold heatmap_section, try_except, bind, lift, st_markdown, st_warning, emit.
  rewrite Hp. cbv zeta. rewrite Hc. simpl. now rewrite <- app_assoc.
Qed.

Lemma heatmap_section_chart_returned (heat_df : list heat_row) (heat_pivot : frame)
      (fig : figure) (page : list element) :
  pivot heat_df = Returned heat_pivot ->
  create_annotated_heatmap (fillna 0 heat_pivot) = Returned fig ->
  heatmap_section heat_df page =
    (page ++ [heatmap_heading; plotly_chart fig], Returned tt).
Proof.
  intros Hp Hc.
  unfold heatmap_section, try_except, bind, lift, st_markdown, st_plotly_chart, emit.
  rewrite Hp. cbv zeta. rewrite Hc. simpl. now rewrite <- app_assoc.
Qed.

Lemma page_after_heatmap (heat_df : list heat_row) (df : list record)
      (page : list element) (added : list element) :
  heatmap_section heat_df page = (page ++ added, Returned tt) ->
  page_from_heatmap heat_df df page =
    (page ++ added ++ timeline_elements df ++ closing_elements, Returned tt).
Proof.
  intros Hh. unfold page_from_heatmap, bind. rewrite Hh.
  rewrite timeline_section_run, closing_note_run.
  now rewrite <- !app_assoc.
Qed.

Lemma pivot_nil : pivot [] = Returned (mk_frame [] [] []).
Proof. reflexivity. Qed.

(** A frame with a row pivots to a matrix with a row, and the chart of the
    filled matrix is built. *)
Lemma chart_of_nonempty_frame (heat_df : list heat_row) (heat_pivot : frame) :
  pivot heat_df = Returned heat_pivot ->
  heat_df <> [] ->
  create_annotated_heatmap (fillna 0 heat_pivot) =
  Returned (annotated_heatmap
              (map (fun d =>
                      map (fun p => fill 0 (cell_or_NaN (lookup_cell heat_df d p)))
                          (columns heat_pivot))
                   (index heat_pivot))
              (columns heat_pivot) (index heat_pivot)).
Proof.
  intros Hp Hne. unfold pivot in Hp.
  destruct (duplicated (map heat_key heat_df)); [discriminate|].
  injection Hp as <-.
  destruct heat_df as [|h hs]; [now destruct Hne|].
  assert (In (hr_Department h) (sorted_unique (map hr_Department (h :: hs)))) as Hin
      by (apply In_sorted_unique; now left).
  unfold create_annotated_heatmap, fillna. cbn [values index columns].
  destruct (sorted_unique (map hr_Department (h :: hs))) as [|d ds];
    [contradiction|].
  cbn [map]. do 2 f_equal. f_equal.
  - now rewrite map_map.
  - rewrite map_map. apply map_ext. intros d'. now rewrite map_map.
Qed.

Lemma skipn_added {A} (page added : list A) :
  skipn (List.length page) (page ++ added) = added.
Proof.
  rewrite skipn_app, Nat.sub_diag, skipn_all. reflexivity.
Qed.

(** C7, as stated, fails in its second half: for a week without project
    ([proj_summary] empty) the pivot returns the empty frame, the
    construction of the chart raises inside the [try] block, and the page
    gets the warning. *)
Lemma C7_empty_frame_counterexample : ~ no_warning_when_pivot_returns.
Proof.
  intros Hclaim.
  specialize (Hclaim [] [] [] (mk_frame [] [] []) eq_refl).
  vm_compute in Hclaim. discriminate Hclaim.
Qed.

(** C7, amended: when a statement of the [try] block of the heatmap raises
    - the pivot, or the construction of the chart, which raises on the
    empty frame of a week without project - the exception is caught in
    place: the page gets a warning with the message, then the heading of
    the timeline, the chart of the timeline when a "Super Critical" row
    exists, and the closing note, and the script returns. When the pivot
    returns on a frame that is not empty, the page gets the chart of the
    pivoted frame with every missing cell set to 0, and no warning. *)
Theorem C7_heatmap_failure_is_local
  (heat_df : list heat_row) (df : list record) (page : list element) :
  let rest :=
    (markdown "#### Timeline Trend: Super Critical Projects"
     :: match timeline_df df with
        | _ :: _ => [plotly_chart (line (agg_tl (timeline_df df)))]
        | [] => []
        end)
    ++ [markdown "---";
        markdown "**Note:** All data and status are for demonstration purposes only."] in
  (forall e,
      pivot heat_df = Raised e ->
      page_from_heatmap heat_df df page =
        (page ++ [markdown "#### Department-wise Project Heatmap";
                  warning ("Unable to render heatmap for this week: " ++ e)%string]
              ++ rest,
         Returned tt)) /\
  (heat_df = [] ->
   exists e,
     page_from_heatmap heat_df df page =
       (page ++ [markdown "#### Department-wise Project Heatmap";
                 warning ("Unable to render heatmap for this week: " ++ e)%string]
             ++ rest,
        Returned tt)) /\
  (forall heat_pivot,
      pivot heat_df = Returned heat_pivot ->
      heat_df <> [] ->
      page_from_heatmap heat_df df page =
        (page ++ [markdown "#### Department-wise Project Heatmap";
                  plotly_chart
                    (annotated_heatmap
                       (map (fun d =>
                               map (fun p => fill 0 (cell_or_NaN (lookup_cell heat_df d p)))
                                   (columns heat_pivot))
                            (index heat_pivot))
                       (columns heat_pivot) (index heat_pivot))]
              ++ rest,
         Returned tt) /\
      existsb is_warning
        (skipn (List.length page) (fst (page_from_heatmap heat_df df page))) = false).
Proof.
  intros rest.
  assert (rest = timeline_elements df ++ closing_elements) as -> by reflexivity.
  split; [|split].
  - intros e Hp. apply page_after_heatmap.
    now apply heatmap_section_pivot_raised.
  - intros ->. eexists. apply page_after_heatmap.
    apply (heatmap_section_chart_raised [] (mk_frame [] [] []));
      reflexivity.
  - intros heat_pivot Hp Hne.
    pose proof (chart_of_nonempty_frame heat_df heat_pivot Hp Hne) as Hc.
    pose proof (page_after_heatmap heat_df df page _
                  (heatmap_section_chart_returned heat_df heat_pivot _ page Hp Hc))
      as Hrun.
    split; [exact Hrun|].
    rewrite Hrun. cbn [fst]. rewrite skipn_added. simpl.
    apply no_warning_after_heatmap.
Qed.

Lemma C7_heatmap_failure_is_local_witness :
  page_from_heatmap heat_df_twice [] [] =
    ([markdown "#### Department-wise Project Heatmap";
      warning "Unable to render heatmap for this week: Index contains duplicate entries, cannot reshape";
      markdown "#### Timeline Trend: Super Critical Projects";
      markdown "---";
      markdown "**Note:** All data and status are for demonstration purposes only."],
     Returned tt) /\
  (exists e,
      page_from_heatmap (heat_df []) [amrut_late] [] =
        ([markdown "#### Department-wise Project Heatmap";
          warning ("Unable to render heatmap for this week: " ++ e)%string;
          markdown "#### Timeline Trend: Super Critical Projects";
          plotly_chart (line (agg_tl (timeline_df [amrut_late])));
          markdown "---";
          markdown "**Note:** All data and status are for demonstration purposes only."],
         Returned tt)) /\
  page_from_heatmap heat_df_sparse [] [] =
    ([markdown "#### Department-wise Project Heatmap";
      plotly_chart
        (annotated_heatmap
           [[Fin 0; Fin 80; Fin 0]; [Fin 42.5; Fin 0; Fin 0]]
           ["Amrut"; "Bridge A"; "Metro"] ["PWD"; "Urban"]);
      markdown "#### Timeline Trend: Super Critical Projects";
      markdown "---";
      markdown "**Note:** All data and status are for demonstration purposes only."],
     Returned tt).
Proof.
  split; [|split].
  - apply (proj1 (C7_heatmap_failure_is_local heat_df_twice [] [])
                 "Index contains duplicate entries, cannot reshape").
    reflexivity.
  - apply (proj1 (proj2 (C7_heatmap_failure_is_local (heat_df []) [amrut_late] []))).
    reflexivity.
  - destruct (proj2 (proj2 (C7_heatmap_failure_is_local heat_df_sparse [] []))
                    (mk_frame ["PWD"; "Urban"] ["Amrut"; "Bridge A"; "Metro"]
                              [[NaN; Fin 80; NaN]; [Fin 42.5; NaN; NaN]])
                    eq_refl) as [Hrun _]; [discriminate|].
    exact Hrun.
Defined.

Lemma heat_df_nonempty (proj_summary : list classified) :
  proj_summary <> [] -> heat_df proj_summary <> [].
Proof.
  intros Hne E. destruct proj_summary as [|c cs]; [now destruct Hne|].
  assert (In (ps_Department (cs_row c), ps_Project_Name (cs_row c))
             (map heat_key (heat_df (c :: cs)))) as Hin.
  { apply In_heat_df. exists c. repeat split. now left. }
  now rewrite E in Hin.
Qed.

(** X17: on the frame the dashboard builds, the heatmap section shows the
    warning exactly when [proj_summary] is empty (a week in which every
    row lacks a key cell): the pivot itself never raises there. For every
    [proj_summary] that is not empty, the section puts the chart of the
    pivoted and filled frame on the page and no warning. In both cases
    the timeline section and the closing note follow and the script
    returns. *)
Theorem X17_heatmap_warning_iff_no_project
  (proj_summary : list classified) (df : list record) (page : list element) :
  (proj_summary = [] ->
   exists e,
     page_from_heatmap (heat_df proj_summary) df page =
       (page ++ [heatmap_heading;
                 warning ("Unable to render heatmap for this week: " ++ e)%string]
             ++ timeline_elements df ++ closing_elements,
        Returned tt)) /\
  (proj_summary <> [] ->
   exists heat_pivot,
     pivot (heat_df proj_summary) = Returned heat_pivot /\
     page_from_heatmap (heat_df proj_summary) df page =
       (page ++ [heatmap_heading;
                 plotly_chart
                   (annotated_heatmap (values (fillna 0 heat_pivot))
                                      (columns heat_pivot) (index heat_pivot))]
             ++ timeline_elements df ++ closing_elements,
        Returned tt) /\
     existsb is_warning
       (skipn (List.length page)
              (fst (page_from_heatmap (heat_df proj_summary) df page))) = false).
Proof.
  split.
  - intros ->. eexists. apply page_after_heatmap.
    apply (heatmap_section_chart_raised _ (mk_frame [] [] [])); reflexivity.
  - intros Hne. destruct (pivot_heat_df_returns proj_summary) as (hp & Hp).
    exists hp. split; [exact Hp|].
    pose proof (chart_of_nonempty_frame _ hp Hp (heat_df_nonempty _ Hne)) as Hc.
    assert (create_annotated_heatmap (fillna 0 hp) =
            Returned (annotated_heatmap (values (fillna 0 hp)) (columns hp) (index hp)))
      as Hc'.
    { unfold create_annotated_heatmap in *.
      destruct (values (fillna 0 hp)); [discriminate|reflexivity]. }
    pose proof (page_after_heatmap _ df page _
                  (heatmap_section_chart_returned _ hp _ page Hp Hc')) as Hrun.
    split; [exact Hrun|].
    rewrite Hrun. cbn [fst]. rewrite skipn_added. simpl.
    apply no_warning_after_heatmap.
Qed.

Lemma X17_heatmap_warning_iff_no_project_witness :
  (exists e,
      page_from_heatmap
        (heat_df (with_derived_status (fun _ => midnight 20000)
                    (aggregate_project_progress [row_no_sub_department]))) [] [] =
        ([heatmap_heading;
          warning ("Unable to render heatmap for this week: " ++ e)%string]
           ++ timeline_elements [] ++ closing_elements,
         Returned tt)) /\
  existsb is_warning
    (skipn (List.length (@nil element))
       (fst (page_from_heatmap
               (heat_df (with_derived_status (fun _ => midnight 20000)
                           (aggregate_project_progress [bridge_a_80; amrut_late])))
               [] []))) = false.
Proof.
  split.
  - apply (proj1 (X17_heatmap_warning_iff_no_project
                    (with_derived_status (fun _ => midnight 20000)
                       (aggregate_project_progress [row_no_sub_department]))
                    [] [])).
    reflexivity.
  - destruct (proj2 (X17_heatmap_warning_iff_no_project
                       (with_derived_status (fun _ => midnight 20000)
                          (aggregate_project_progress [bridge_a_80; amrut_late]))
                       [] [])
                    ltac:(vm_compute; discriminate)) as (hp & _ & _ & Hw).
    exact Hw.
Defined.
